(** * win32lfn: the long-path shim of [win32lfn.py]

    A shallow embedding of the path encoder ([uncabspath]), the wrappers
    ([wrap1], [wrap2]), the native directory enumerator ([lfnlistdir]),
    directory creation ([lfnmkdir]), the split wrapper ([wrapsplit]) and the
    emulated change of directory ([wrapchdir]), with the properties the
    specification states about them.

    Python values are a small tagged union, Python exceptions an inductive
    type, and the module runs in a state-and-exception monad whose state holds
    the module global [_cwd], the part of the operating system the module
    talks to, and the log of the calls that left the module. *)

From Stdlib Require Import String Ascii List ZArith Lia Bool DecimalString.
Import ListNotations.

Local Open Scope string_scope.
Local Open Scope Z_scope.

(** ** Python strings

    A [str] and a [bytes] are both modelled by their sequence of characters.
    Only ASCII letters have case here: no character outside ASCII upper-cases
    into a letter of a reserved device name, so membership of [p.upper()] in
    the reserved names is decided by the ASCII letters alone. *)

Module Py.

Definition len (s : string) : Z := Z.of_nat (String.length s).

(** [s.startswith(pre)] *)
Fixpoint startswith (s pre : string) {struct pre} : bool :=
  match pre with
  | EmptyString => true
  | String a pre' =>
      match s with
      | EmptyString => false
      | String b s' => Ascii.eqb a b && startswith s' pre'
      end
  end.

(** [s.endswith(suf)] *)
Definition endswith (s suf : string) : bool :=
  let n := String.length s in
  let m := String.length suf in
  (m <=? n)%nat && String.eqb (String.substring (n - m) m s) suf.

Definition upper_char (c : ascii) : ascii :=
  let n := nat_of_ascii c in
  if ((97 <=? n) && (n <=? 122))%nat then ascii_of_nat (n - 32) else c.

(** [s.upper()] *)
Fixpoint upper (s : string) : string :=
  match s with
  | EmptyString => EmptyString
  | String c r => String (upper_char c) (upper r)
  end.

(** [s[1:]] *)
Definition from1 (s : string) : string :=
  match s with
  | EmptyString => EmptyString
  | String _ r => r
  end.

(** [x in names] for a set of strings *)
Definition mem (x : string) (names : list string) : bool :=
  existsb (String.eqb x) names.

(** ["%s" % n] for an integer *)
Definition str_of_int (z : Z) : string := NilZero.string_of_int (Z.to_int z).

(** The values a caller can hand to the module as a path argument. *)
Inductive value : Type :=
| Str (s : string)
| Bytes (b : string)
| Int (z : Z)
| NoneV
| Obj (cls : string) (shown : string).
    (* any other object: its class name and what [str()] shows *)

(** [isinstance(v, str)] and [isinstance(v, bytes)] *)
Definition is_str (v : value) : bool :=
  match v with Str _ => true | _ => false end.
Definition is_bytes (v : value) : bool :=
  match v with Bytes _ => true | _ => false end.

(** [v == w]: values of different types are never equal; in particular a
    [bytes] is never equal to a [str]. *)
Definition eq (v w : value) : bool :=
  match v, w with
  | Str a, Str b => String.eqb a b
  | Bytes a, Bytes b => String.eqb a b
  | Int a, Int b => Z.eqb a b
  | NoneV, NoneV => true
  | Obj c a, Obj d b => String.eqb c d && String.eqb a b
  | _, _ => false
  end.

(** ["%s" % v] *)
Definition str (v : value) : string :=
  match v with
  | Str s => s
  | Bytes b => "b'" ++ b ++ "'"
  | Int z => str_of_int z
  | NoneV => "None"
  | Obj _ shown => shown
  end.

(** ["%s" % type(v)] *)
Definition type_name (v : value) : string :=
  match v with
  | Str _ => "str"
  | Bytes _ => "bytes"
  | Int _ => "int"
  | NoneV => "NoneType"
  | Obj cls _ => cls
  end.
Definition str_of_type (v : value) : string :=
  "<class '" ++ type_name v ++ "'>".

(** Exceptions the module raises or lets through. *)
Inductive oserror_class : Type :=
| PlainOSError | FileNotFoundError | FileExistsError.

Inductive exn : Type :=
| TypeError (msg : string)
| ValueError (msg : string)
| IndexError
| KeyError (key : Z)
| UnicodeDecodeError
| UnicodeEncodeError
| OSError_ (cls : oserror_class) (errno : Z) (msg : string).

Definition ENOENT : Z := 2.
Definition EEXIST : Z := 17.

(** [OSError(errno, msg)]: the constructor picks the subclass from the
    error number. *)
Definition OSError (errno : Z) (msg : string) : exn :=
  OSError_ (if errno =? ENOENT then FileNotFoundError
            else if errno =? EEXIST then FileExistsError
            else PlainOSError) errno msg.

Definition errno_of (e : exn) : option Z :=
  match e with
  | OSError_ _ n _ => Some n
  | _ => None
  end.

End Py.

Import Py.

(** ** Module constants *)

Definition _uncprefix : string := "\\?\".
Definition _deviceprefix : string := "\\.\".
Definition _maxpath : Z := 260.
Definition _maxdirpath : Z := 248.

Definition _WINDOWS_RESERVED_NAMES : list string :=
  ["CON"; "PRN"; "AUX"; "NUL"; "COM1"; "COM2"; "COM3";
   "COM4"; "COM5"; "COM6"; "COM7"; "COM8"; "COM9"; "LPT1"; "LPT2"; "LPT3"; "LPT4";
   "LPT5"; "LPT6"; "LPT7"; "LPT8"; "LPT9"].

Definition _INVALID_HANDLE_VALUE : Z := -1.
Definition _BAN : list value := [Str "."; Str ".."].

Definition _ERROR_FILE_NOT_FOUND : Z := 2.
Definition _ERROR_PATH_NOT_FOUND : Z := 3.
Definition _ERROR_ALREADY_EXISTS : Z := 183.

(** The dict [_errmap], in the order it is written. *)
Definition _errmap : list (Z * Z) :=
  [(_ERROR_PATH_NOT_FOUND, ENOENT);
   (_ERROR_ALREADY_EXISTS, EEXIST)].

(** [d.get(k)]: the first binding of [k]. *)
Fixpoint dict_get (d : list (Z * Z)) (k : Z) : option Z :=
  match d with
  | [] => None
  | (k', v) :: d' => if k' =? k then Some v else dict_get d' k
  end.

(** ** The world outside the module

    What the interpreter's library and kernel32 answer is not in the module;
    it is a parameter.  [find_answer] is what [FindFirstFileA] and the
    [FindNextFileA] calls after it deliver for one pattern. *)

Inductive find_answer : Type :=
| Opened (handle : Z) (first : string) (rest : list string)
    (* a handle, the name written by the open call, the names the
       following calls write, in that order *)
| NotOpened (code : Z).
    (* INVALID_HANDLE_VALUE; [code] becomes the last error *)

Record Native : Type := {
  os_abspath : string -> string -> string;
    (* os.path.abspath, given the process' working directory *)
  os_join : string -> string -> string;      (* os.path.join *)
  os_decode : string -> option string;       (* bytes.decode('utf-8') *)
  os_encode : string -> option string;
    (* str.encode: the bytes, or nothing where it raises UnicodeEncodeError *)
  os_gettext : string -> option string;
    (* mercurial.i18n._ on a str message: nothing when it hands the message
       back as it is (HGPLAIN), else the translation, which is a bytes *)
  os_exists : string -> bool;                (* os.path.exists *)
  os_chdir : string -> option exn;           (* the native chdir: its failure, if any *)
  os_warn : string -> option exn;            (* ui.warn: its failure, if any *)
  os_find : string -> find_answer;           (* FindFirstFileA and what follows *)
  os_mkdir : string -> option Z              (* CreateDirectoryA: its failure code, if any *)
}.

(** Calls that leave the module, as they are logged. *)
Inductive call : Type :=
| CallAbspath (p : string)
| CallExists (p : string)
| CallChdir (p : string)
| CallWarn (msg : string)
| CallFindFirstFile (pattern : string)
| CallFindNextFile (handle : Z)
| CallFindClose (handle : Z)
| CallGetLastError
| CallCreateDirectory (p : string) (security : option string)
| CallMethod (args : list value) (kwargs : list (string * value)).

Record state : Type := mkState {
  _cwd : option string;                     (* the module global _cwd *)
  real_cwd : string;                        (* the process' working directory *)
  last_error : Z;                           (* kernel32's last-error value *)
  find_open : option (Z * list string);     (* the open find handle, names not yet delivered *)
  trace : list call                         (* calls made so far, oldest first *)
}.

(** ** State and exceptions *)

Inductive outcome (A : Type) : Type :=
| Ret (a : A)
| Raise (e : exn)
| OutOfFuel.
Arguments Ret {A} a.
Arguments Raise {A} e.
Arguments OutOfFuel {A}.

Definition M (A : Type) : Type := state -> outcome A * state.

Definition ret {A} (a : A) : M A := fun s => (Ret a, s).
Definition raise {A} (e : exn) : M A := fun s => (Raise e, s).
Definition bind {A B} (m : M A) (k : A -> M B) : M B :=
  fun s =>
    match m s with
    | (Ret a, s') => k a s'
    | (Raise e, s') => (Raise e, s')
    | (OutOfFuel, s') => (OutOfFuel, s')
    end.

Notation "x <- m ;; k" := (bind m (fun x => k))
  (at level 61, m at next level, right associativity).
Notation "m ;;; k" := (bind m (fun _ => k))
  (at level 61, right associativity).

(** [try: body finally: cleanup] *)
Definition try_finally {A} (body : M A) (cleanup : M unit) : M A :=
  fun s =>
    let (r, s') := body s in
    match cleanup s' with
    | (Ret _, s'') => (r, s'')
    | (Raise e, s'') => (Raise e, s'')
    | (OutOfFuel, s'') => (OutOfFuel, s'')
    end.

(** State updates. *)
Definition logged (c : call) (s : state) : state :=
  mkState (_cwd s) (real_cwd s) (last_error s) (find_open s) (trace s ++ [c]).
Definition with_last_error (code : Z) (s : state) : state :=
  mkState (_cwd s) (real_cwd s) code (find_open s) (trace s).
Definition with_find_open (h : option (Z * list string)) (s : state) : state :=
  mkState (_cwd s) (real_cwd s) (last_error s) h (trace s).
Definition with_real_cwd (p : string) (s : state) : state :=
  mkState (_cwd s) p (last_error s) (find_open s) (trace s).
Definition with__cwd (p : string) (s : state) : state :=
  mkState (Some p) (real_cwd s) (last_error s) (find_open s) (trace s).

Definition modify (f : state -> state) : M unit := fun s => (Ret tt, f s).
Definition log (c : call) : M unit := modify (logged c).
Definition set_last_error (code : Z) : M unit := modify (with_last_error code).
Definition set_find_open (h : option (Z * list string)) : M unit :=
  modify (with_find_open h).
Definition set_real_cwd (p : string) : M unit := modify (with_real_cwd p).
Definition set__cwd (p : string) : M unit := modify (with__cwd p).
Definition gets {A} (f : state -> A) : M A := fun s => (Ret (f s), s).

(** ** The module, over a given world *)

Section Shim.

Variable os : Native.

(** *** Library and kernel32 entry points, as the module calls them *)

(** [os.path.abspath(p)] *)
Definition abspath (p : string) : M string :=
  log (CallAbspath p) ;;;
  cwd <- gets real_cwd ;;
  ret (os_abspath os cwd p).

(** [os.path.exists(p)] *)
Definition path_exists (p : string) : M bool :=
  log (CallExists p) ;;; ret (os_exists os p).

(** [os.chdir(p)] before it is wrapped *)
Definition native_chdir (p : string) : M unit :=
  log (CallChdir p) ;;;
  match os_chdir os p with
  | None => set_real_cwd p
  | Some e => raise e
  end.

(** [ui.warn(msg)] *)
Definition ui_warn (msg : string) : M unit :=
  log (CallWarn msg) ;;;
  match os_warn os msg with
  | None => ret tt
  | Some e => raise e
  end.

(** [_FindFirstFile(pattern, byref(out))]: the handle and the file name now
    in [out].  A failed open leaves [out] as it was. *)
Definition _FindFirstFile (pattern : string) (out : string) : M (Z * string) :=
  log (CallFindFirstFile pattern) ;;;
  match os_find os pattern with
  | Opened h first rest => set_find_open (Some (h, rest)) ;;; ret (h, first)
  | NotOpened code => set_last_error code ;;; ret (_INVALID_HANDLE_VALUE, out)
  end.

(** [_FindNextFile(fldr, byref(out))]: whether a name was delivered, and the
    file name now in [out].  A handle that is not open delivers nothing
    (error 6, invalid handle); an exhausted one neither (error 18, no more
    files). *)
Definition _FindNextFile (fldr : Z) (out : string) : M (bool * string) :=
  log (CallFindNextFile fldr) ;;;
  o <- gets find_open ;;
  match o with
  | Some (h, rest) =>
      if h =? fldr then
        match rest with
        | n :: rest' => set_find_open (Some (h, rest')) ;;; ret (true, n)
        | [] => set_last_error 18 ;;; ret (false, out)
        end
      else set_last_error 6 ;;; ret (false, out)
  | None => set_last_error 6 ;;; ret (false, out)
  end.

(** [_FindClose(fldr)] *)
Definition _FindClose (fldr : Z) : M unit :=
  log (CallFindClose fldr) ;;;
  o <- gets find_open ;;
  match o with
  | Some (h, _) => if h =? fldr then set_find_open None else ret tt
  | None => ret tt
  end.

(** [_GetLastError()] *)
Definition _GetLastError : M Z :=
  log CallGetLastError ;;; gets last_error.

(** [_CreateDirectory(path, security)]: nonzero on success, zero on failure. *)
Definition _CreateDirectory (path : string) (security : option string) : M Z :=
  log (CallCreateDirectory path security) ;;;
  match os_mkdir os path with
  | None => ret 1
  | Some code => set_last_error code ;;; ret 0
  end.

(** *** bytestostring, stringtobytes *)

Definition bytestostring (v : value) : M value :=
  match v with
  | Bytes b =>
      match os_decode os b with
      | Some s => ret (Str s)
      | None => raise UnicodeDecodeError
      end
  | _ => ret v
  end.

Definition stringtobytes (v : value) : M value :=
  match v with
  | Str s =>
      match os_encode os s with
      | Some b => ret (Bytes b)
      | None => raise UnicodeEncodeError
      end
  | _ => ret v
  end.

(** *** uncabspath *)

Definition uncabspath (path : value) : M string :=
  path <- bytestostring path ;;
  match path with
  | Str path =>
      if negb (startswith path _uncprefix)
         && negb (startswith path _deviceprefix)
         && negb (mem (upper path) _WINDOWS_RESERVED_NAMES)
      then
        path <- abspath path ;;
        if negb (startswith path _uncprefix) then
          if startswith path "\\" then
            ret (_uncprefix ++ "UNC" ++ from1 path)
          else
            ret (_uncprefix ++ path)
        else ret path
      else ret path
  | _ =>
      raise (TypeError (str path ++ " is not a string (" ++ str_of_type path ++ ")"))
  end.

(** *** wrap1, wrap2 *)

Definition method_t : Type := list value -> list (string * value) -> M value.

Definition call_method (method : method_t) : method_t :=
  fun args kwargs => log (CallMethod args kwargs) ;;; method args kwargs.

Definition wrap1 (method : method_t) : method_t :=
  fun args kwargs =>
    match args with
    | [] => raise IndexError
    | a0 :: rest =>
        p <- uncabspath a0 ;;
        path <- stringtobytes (Str p) ;;
        call_method method (path :: rest) kwargs
    end.

Definition wrap2 (method : method_t) : method_t :=
  fun args kwargs =>
    match args with
    | [] => raise IndexError
    | a0 :: rest =>
        p <- uncabspath a0 ;;
        src <- stringtobytes (Str p) ;;
        match rest with
        | [] => raise IndexError
        | a1 :: rest' =>
            q <- uncabspath a1 ;;
            dst <- stringtobytes (Str q) ;;
            call_method method (src :: dst :: rest') kwargs
        end
    end.

(** *** lfnlistdir *)

(** The names the handle [fldr] has still to deliver. *)
Definition pending (fldr : Z) (s : state) : nat :=
  match find_open s with
  | Some (h, rest) => if h =? fldr then List.length rest else O
  | None => O
  end.

(** The [while True] loop.  [out] is the file name in the find-data buffer,
    which ctypes hands over as a [bytes].  Each round makes one
    [_FindNextFile] call, so the loop ends within one round more than there
    are names pending; [fuel] counts the rounds. *)
Fixpoint lfnlistdir_loop (fuel : nat) (fldr : Z) (out : string)
    (result : list value) : M (list value) :=
  match fuel with
  | O => fun s => (OutOfFuel, s)
  | S fuel' =>
      let cFileName := Bytes out in
      let result :=
        if negb (eq cFileName (Str "..")) && negb (eq cFileName (Str "."))
        then (result ++ [cFileName])%list
        else result in
      r <- _FindNextFile fldr out ;;
      if negb (fst r) then ret result
      else lfnlistdir_loop fuel' fldr (snd r) result
  end.

Definition lfnlistdir (path : value) : M (list value) :=
  path <- uncabspath path ;;
  let out := "" in                            (* WIN32_FIND_DATAA(): all zero *)
  r <- _FindFirstFile (os_join os path "*") out ;;
  let fldr := fst r in
  let out := snd r in
  let result := [] in
  (if fldr =? _INVALID_HANDLE_VALUE then
     error <- _GetLastError ;;
     if negb (error =? _ERROR_PATH_NOT_FOUND) && negb (error =? _ERROR_FILE_NOT_FOUND)
     then raise (ValueError ("invalid handle (" ++ path ++ ", " ++ str_of_int error ++ ")! "))
     else ret tt
   else ret tt) ;;;
  n <- gets (pending fldr) ;;
  try_finally (lfnlistdir_loop (S n) fldr out result) (_FindClose fldr).

(** *** lfnmkdir *)

Definition lfnmkdir (path : value) (mode : option value) : M unit :=
  path <- uncabspath path ;;
  error <- _CreateDirectory path None ;;
  if error =? 0 then
    error <- _GetLastError ;;
    match dict_get _errmap error with      (* _errmap[error] *)
    | Some pyerrno => raise (OSError pyerrno "Error")
    | None => raise (KeyError error)
    end
  else ret tt.

(** *** _addmissingbackslash, wrapsplit *)

Definition _addmissingbackslash (path : string) : string :=
  if endswith path ":" then path ++ "\" else path.

Definition wrapsplit (split : string -> string * string) : string -> string * string :=
  fun path =>
    let result := split path in
    if endswith (fst result) ":" then (fst result ++ "\", snd result)
    else result.

(** *** wrapchdir, wrapgetcwd *)

Definition newline : string := String (ascii_of_nat 10) EmptyString.

(** [_(fmt) % path] for a str [path], where the message [fmt] is
    [before ++ "%s"]: the message with the path filled in where [_] hands the
    str back, and a [TypeError] where [_] returns a [bytes], which takes no
    str argument. *)
Definition bytes_percent_str : string :=
  "%b requires a bytes-like object, or an object that implements __bytes__, not 'str'".

Definition gettext_percent (before path : string) : M string :=
  match os_gettext os (before ++ "%s") with
  | None => ret (before ++ path)
  | Some _ => raise (TypeError bytes_percent_str)
  end.

Definition long_chdir_warning : string :=
  "warning: chdir to a long directory path (see hg help win32lfn):" ++ newline.

Definition wrapchdir (warn : string -> M unit) (chdir : string -> M unit)
    : string -> M unit :=
  fun path =>
    path <- abspath path ;;
    (if len path >=? _maxdirpath then
       msg <- gettext_percent long_chdir_warning path ;;
       warn msg
     else chdir path) ;;;
    path <- uncabspath (Str path) ;;
    e <- path_exists path ;;
    if e then set__cwd path
    else
      msg <- gettext_percent "Directory doesn't exist: " path ;;
      raise (OSError ENOENT msg).

Definition wrapgetcwd (getcwd : M string) : M string :=
  c <- gets _cwd ;;
  match c with
  | Some (String _ _ as result) => ret result
  | _ => getcwd
  end.

(** [os.chdir] as [uisetup] would install it. *)
Definition lfnchdir : string -> M unit := wrapchdir ui_warn native_chdir.

End Shim.

(** ** Vocabulary of the statements *)

(** [a] and [b] are equal up to the case of their letters. *)
Definition eq_nocase (a b : string) : bool := String.eqb (upper a) (upper b).

(** [p] is, up to case, one of the reserved device names. *)
Definition is_reserved (p : string) : bool :=
  existsb (eq_nocase p) _WINDOWS_RESERVED_NAMES.

(** [p] is left alone by [uncabspath]: it carries one of the two markers or
    names a device. *)
Definition already_encoded (p : string) : bool :=
  startswith p _uncprefix || startswith p _deviceprefix || is_reserved p.

(** What [uncabspath] makes of an absolute path [q]: the two inner branches. *)
Definition extended_form (q : string) : string :=
  if startswith q _uncprefix then q
  else if startswith q "\\" then _uncprefix ++ "UNC" ++ from1 q
  else _uncprefix ++ q.

(** The path [lfnchdir] asks [os.path.exists] about, when it gets that far:
    the encoded form of the absolute target, taken in the working directory
    the process then has. *)
Definition chdir_target (os : Native) (s : state) (path : string) : string :=
  let a := os_abspath os (real_cwd s) path in
  let cwd := if len a >=? _maxdirpath then real_cwd s else a in
  if already_encoded a then a else extended_form (os_abspath os cwd a).

(** What the last line of [lfnchdir] raises for the missing target [q]:
    building the message comes first, so it is the [OSError] only where [_]
    hands the message back as a str. *)
Definition missing_directory_error (os : Native) (q : string) : exn :=
  match os_gettext os "Directory doesn't exist: %s" with
  | None => OSError ENOENT ("Directory doesn't exist: " ++ q)
  | Some _ => TypeError bytes_percent_str
  end.

(** [n * c] *)
Fixpoint repeat_str (n : nat) (c : string) : string :=
  match n with
  | O => ""
  | S n' => c ++ repeat_str n' c
  end.

(** [P] is head and tail again: the head as it is when it ends with a
    separator (a root), otherwise the head, the separator that split took off
    it, and the tail. *)
Definition recomposes (P h t : string) : Prop :=
  (endswith h "\" = true /\ P = h ++ t) \/
  (endswith h "\" = false /\ P = h ++ "\" ++ t).

(** [join] puts one separator between [h] and [t], and none after a head that
    ends with a separator or with a colon. *)
Definition joins_with_one_separator (join : string -> string -> string)
    (h t : string) : Prop :=
  join h t = if endswith h "\" || endswith h ":" then h ++ t else h ++ "\" ++ t.

(** The last character of a string. *)
Fixpoint last_char (s : string) : option ascii :=
  match s with
  | EmptyString => None
  | String c EmptyString => Some c
  | String _ r => last_char r
  end.

(** A sample native pair: a split that knows drive letters but not the
    extended marker, which is the one the docstring of [wrapsplit] shows, and a
    join of two parts. *)
Definition is_sep (c : ascii) : bool := Ascii.eqb c "\" || Ascii.eqb c "/".

Fixpoint no_sep (s : string) : bool :=
  match s with
  | EmptyString => true
  | String c r => negb (is_sep c) && no_sep r
  end.

Fixpoint split_at_last_sep (p : string) : string * string :=
  match p with
  | EmptyString => (EmptyString, EmptyString)
  | String c r =>
      let (h, t) := split_at_last_sep r in
      match h with
      | EmptyString =>
          if is_sep c then (String c EmptyString, t) else (EmptyString, String c t)
      | _ => (String c h, t)
      end
  end.

Fixpoint rstrip_seps (s : string) : string :=
  match s with
  | EmptyString => EmptyString
  | String c r =>
      match rstrip_seps r with
      | EmptyString => if is_sep c then EmptyString else String c EmptyString
      | r' => String c r'
      end
  end.

Definition sample_splitdrive (p : string) : string * string :=
  match p with
  | String c (String ":" r) => (String c ":", r)
  | _ => (EmptyString, p)
  end.

Definition sample_split (p : string) : string * string :=
  let (d, p') := sample_splitdrive p in
  let (head, tail) := split_at_last_sep p' in
  let head2 := rstrip_seps head in
  (d ++ (match head2 with EmptyString => head | _ => head2 end), tail).

Definition sample_join (a b : string) : string :=
  match a with
  | EmptyString => b
  | _ =>
      if endswith a "\" || endswith a "/" || endswith a ":" then a ++ b
      else a ++ "\" ++ b
  end.

(** The native pair of the interpreter: [splitdrive], [split], [join] and
    [isabs] of CPython 3.11's [ntpath], on str arguments. *)

Module ntpath.

Definition sep : string := "\".

(** [c in seps] *)
Definition in_seps (c : ascii) : bool := Ascii.eqb c "\" || Ascii.eqb c "/".

(** [s[:n]] and [s[n:]] *)
Definition take (n : nat) (s : string) : string := String.substring 0 n s.

Fixpoint drop (n : nat) (s : string) : string :=
  match n, s with
  | O, _ => s
  | S _, EmptyString => EmptyString
  | S n', String _ r => drop n' r
  end.

(** [p.replace(altsep, sep)] *)
Fixpoint replace_altsep (p : string) : string :=
  match p with
  | EmptyString => EmptyString
  | String c r =>
      String (if Ascii.eqb c "/" then "\"%char else c) (replace_altsep r)
  end.

(** [s.find(sep, start)]; [None] is [-1] *)
Fixpoint find_sep (s : string) (start : nat) : option nat :=
  match s with
  | EmptyString => None
  | String c r =>
      match start with
      | O => if Ascii.eqb c "\" then Some O else option_map S (find_sep r O)
      | S start' => option_map S (find_sep r start')
      end
  end.

Definition lower_char (c : ascii) : ascii :=
  let n := nat_of_ascii c in
  if ((65 <=? n) && (n <=? 90))%nat then ascii_of_nat (n + 32) else c.

(** [s.lower()] *)
Fixpoint lower (s : string) : string :=
  match s with
  | EmptyString => EmptyString
  | String c r => String (lower_char c) (lower r)
  end.

(** [bool(s)] *)
Definition nonempty (s : string) : bool :=
  match s with EmptyString => false | _ => true end.

(** [s and s[0] in seps] *)
Definition starts_with_sep (s : string) : bool :=
  match s with String c _ => in_seps c | EmptyString => false end.

(** [s and s[-1] not in seps] *)
Fixpoint ends_without_sep (s : string) : bool :=
  match s with
  | EmptyString => false
  | String c EmptyString => negb (in_seps c)
  | String _ r => ends_without_sep r
  end.

(** [s[-1:]] *)
Fixpoint last1 (s : string) : string :=
  match s with
  | EmptyString => EmptyString
  | String c EmptyString => s
  | String _ r => last1 r
  end.

Definition splitdrive (p : string) : string * string :=
  if (2 <=? String.length p)%nat then
    let normp := replace_altsep p in
    if String.eqb (take 2 normp) (sep ++ sep) then
      let start :=
        if String.eqb (upper (take 8 normp)) "\\?\UNC\" then 8%nat else 2%nat in
      match find_sep normp start with
      | None => (p, EmptyString)
      | Some index =>
          match find_sep normp (index + 1) with
          | None => (p, EmptyString)
          | Some index2 => (take index2 p, drop index2 p)
          end
      end
    else if String.eqb (String.substring 1 1 normp) ":" then
      (take 2 p, drop 2 p)
    else (EmptyString, p)
  else (EmptyString, p).

Definition split (p : string) : string * string :=
  let (d, p) := splitdrive p in
  let (head, tail) := split_at_last_sep p in
  let head :=
    match rstrip_seps head with EmptyString => head | stripped => stripped end in
  (d ++ head, tail).

(** One round of the loop of [join] over the further paths. *)
Definition join_step (result : string * string) (p : string) : string * string :=
  let (result_drive, result_path) := result in
  let (p_drive, p_path) := splitdrive p in
  if starts_with_sep p_path then
    ((if nonempty p_drive || negb (nonempty result_drive) then p_drive
      else result_drive),
     p_path)
  else if nonempty p_drive && negb (String.eqb p_drive result_drive)
          && negb (String.eqb (lower p_drive) (lower result_drive)) then
    (p_drive, p_path)
  else
    let result_drive :=
      if nonempty p_drive && negb (String.eqb p_drive result_drive) then p_drive
      else result_drive in
    let result_path :=
      if ends_without_sep result_path then result_path ++ sep
      else result_path in
    (result_drive, result_path ++ p_path).

Definition join (path : string) (paths : list string) : string :=
  let (result_drive, result_path) :=
    fold_left join_step paths (splitdrive path) in
  if nonempty result_path && negb (starts_with_sep result_path)
     && nonempty result_drive && negb (String.eqb (last1 result_drive) ":")
  then result_drive ++ sep ++ result_path
  else result_drive ++ result_path.

Definition isabs (s : string) : bool :=
  let s := replace_altsep (take 3 s) in
  startswith s sep || startswith (drop 1 s) ":\".

End ntpath.

(** A sample world: a host with the directory [C:\work], holding [a.txt] and
    [sub], as working directory. *)
Definition sample_abspath (cwd p : string) : string :=
  match p with
  | String "\" _ => p
  | String _ (String ":" (String "\" _)) => p
  | _ => cwd ++ "\" ++ p
  end.

Definition sample_os : Native := {|
  os_abspath := sample_abspath;
  os_join := fun a b => if endswith a "\" then a ++ b else a ++ "\" ++ b;
  os_decode := fun b => Some b;
  os_encode := fun s => Some s;
  os_gettext := fun m => Some m;
  os_exists := fun p => String.eqb p "\\?\C:\work";
  os_chdir := fun p =>
    if String.eqb p "C:\work" then None
    else Some (OSError ENOENT "The system cannot find the file specified");
  os_warn := fun _ => None;
  os_find := fun pattern =>
    if String.eqb pattern "\\?\C:\work\*" then Opened 7 "." [".."; "a.txt"; "sub"]
    else if String.eqb pattern "\\?\C:\locked\*" then NotOpened 5
    else NotOpened 3;
  os_mkdir := fun p =>
    if String.eqb p "\\?\C:\work" then Some 183
    else if String.eqb p "\\?\C:\locked\new" then Some 5
    else None
|}.

Definition sample_state : state := mkState None "C:\work" 0 None [].

(** A sample primitive to wrap: it returns [None]. *)
Definition sample_method : list value -> list (string * value) -> M value :=
  fun _ _ => ret NoneV.

(** What [uncabspath] returns for the string [p] when the process is in
    [cwd], and the state it leaves. *)
Definition encoded (os : Native) (cwd p : string) : string :=
  if already_encoded p then p else extended_form (os_abspath os cwd p).

Definition after_encoding (p : string) (s : state) : state :=
  if already_encoded p then s else logged (CallAbspath p) s.

(** [_cwd] is unset or holds a path that [uncabspath] leaves alone. *)
Definition cwd_encoded (s : state) : Prop :=
  match _cwd s with
  | None => True
  | Some t => already_encoded t = true
  end.

(** ** wrapabspath

    [os.path.normpath], [os.path.isabs], [os.path.split], [os.path.join] and
    [os.getcwd] are looked up when [lfnabspath] runs, so they are whatever is
    bound then: parameters here.  The wrapped [abspath] is never called. *)

Definition wrapabspath (abspath : string -> M string)
    (normpath : string -> string) (isabs : string -> bool)
    (split : string -> string * string) (join : string -> string -> string)
    (getcwd : M string) : string -> M string :=
  fun path =>
    let result := normpath path in
    if negb (isabs result) then
      if String.eqb result "." then getcwd
      else if String.eqb result ".." then
        cwd <- getcwd ;; ret (fst (split cwd))
      else
        cwd <- getcwd ;; ret (join cwd result)
    else ret result.

(** ** The commands: list, cleanDir, lfn

    The walk over the working copy, the user interface and the removal
    primitives are the host's.  [os.walk(root, topdown=False)] has listed a
    directory before it yields anything beneath it, and the commands remove
    only entries of directories already yielded, so the triples do not depend
    on what is removed: the walk is a list.  Answers and failures may depend
    on what has happened so far. *)

Inductive tool_event : Type :=
| Written (text : string)          (* ui.write(text) *)
| Prompted (msg : string)          (* ui.promptchoice(msg, (No, Yes), 0) *)
| Rmdir (d : string)               (* os.rmdir(d) *)
| Unlink (f : string)              (* util.unlink(f) *)
| Unlinkpath (f : string).         (* util.unlinkpath(f) *)

Inductive tool_exn : Type :=
| UnboundLocalError (name : string)
| Propagated (e : exn).

Record Host : Type := {
  host_walk : string -> list (string * (list string * list string));
  host_join : string -> string -> string;
  host_promptchoice : list tool_event -> string -> Z;
  host_rmdir : list tool_event -> string -> option exn;
  host_unlink : list tool_event -> string -> option exn;
  host_has_unlink : bool;            (* hasattr(util, "unlink") *)
  host_gettext : string -> option string
    (* mercurial.i18n._, as [os_gettext] *)
}.

Inductive tool_result (A : Type) : Type :=
| Done (a : A)
| Failed (e : tool_exn).
Arguments Done {A} a.
Arguments Failed {A} e.

Definition T (A : Type) : Type := list tool_event -> tool_result A * list tool_event.

Definition tret {A} (a : A) : T A := fun log => (Done a, log).
Definition tfail {A} (e : tool_exn) : T A := fun log => (Failed e, log).
Definition tbind {A B} (m : T A) (k : A -> T B) : T B :=
  fun log =>
    match m log with
    | (Done a, log') => k a log'
    | (Failed e, log') => (Failed e, log')
    end.

Notation "x <~ m ;; k" := (tbind m (fun x => k))
  (at level 61, m at next level, right associativity).
Notation "m ;;~ k" := (tbind m (fun _ => k))
  (at level 61, right associativity).

Section Tools.

Variable host : Host.

Definition ui_write (text : string) : T unit :=
  fun log => (Done tt, (log ++ [Written text])%list).

Definition ui_promptchoice (msg : string) : T Z :=
  fun log => (Done (host_promptchoice host log msg), (log ++ [Prompted msg])%list).

Definition os_rmdir (d : string) : T unit :=
  fun log =>
    match host_rmdir host log d with
    | None => (Done tt, (log ++ [Rmdir d])%list)
    | Some e => (Failed (Propagated e), (log ++ [Rmdir d])%list)
    end.

Definition util_unlink (f : string) : T unit :=
  fun log =>
    match host_unlink host log f with
    | None => (Done tt, (log ++ [Unlink f])%list)
    | Some e => (Failed (Propagated e), (log ++ [Unlink f])%list)
    end.

(** [_("Delete %s (yn)?") % f] for a str [f] *)
Definition delete_prompt (f : string) : T string :=
  match host_gettext host "Delete %s (yn)?" with
  | None => tret ("Delete " ++ f ++ " (yn)?")
  | Some _ => tfail (Propagated (TypeError bytes_percent_str))
  end.

Definition util_unlinkpath (f : string) : T unit :=
  fun log =>
    match host_unlink host log f with
    | None => (Done tt, (log ++ [Unlinkpath f])%list)
    | Some e => (Failed (Propagated e), (log ++ [Unlinkpath f])%list)
    end.

(** *** list *)

Fixpoint list_dirs (root : string) (dirs : list string) : T unit :=
  match dirs with
  | [] => tret tt
  | dir :: dirs' =>
      let d := host_join host root dir in
      (if len d >? _maxpath then ui_write (d ++ newline) else tret tt) ;;~
      list_dirs root dirs'
  end.

Fixpoint list_files (root : string) (files : list string) : T unit :=
  match files with
  | [] => tret tt
  | file :: files' =>
      let f := host_join host root file in
      let l := len f in
      (if l >=? _maxpath then ui_write (f ++ newline) else tret tt) ;;~
      list_files root files'
  end.

Fixpoint list_walk (triples : list (string * (list string * list string)))
    : T unit :=
  match triples with
  | [] => tret tt
  | (root, (dirs, files)) :: rest =>
      list_dirs root dirs ;;~ list_files root files ;;~ list_walk rest
  end.

(** [list(ui, repo)], on [repo.root] *)
Definition lfn_list (root : string) : T unit := list_walk (host_walk host root).

(** *** cleanDir

    [f] is a local of [cleanDir] that the loop over the files assigns and the
    loop over the directories reads: it is threaded through, [None] while it
    is unbound.  The local [c] is read only right after it is assigned. *)

Fixpoint cleanDir_dirs (force : bool) (root : string) (dirs : list string)
    (f : option string) : T unit :=
  match dirs with
  | [] => tret tt
  | dir :: dirs' =>
      let d := host_join host root dir in
      (if len d >? _maxpath then
         c <~ (if negb force then
                 match f with
                 | None => tfail (UnboundLocalError "f")
                 | Some f' => msg <~ delete_prompt f' ;; ui_promptchoice msg
                 end
               else tret 0) ;;
         if force || negb (c =? 0) then os_rmdir d else tret tt
       else tret tt) ;;~
      cleanDir_dirs force root dirs' f
  end.

Fixpoint cleanDir_files (force : bool) (root : string) (files : list string)
    (f : option string) : T (option string) :=
  match files with
  | [] => tret f
  | file :: files' =>
      let f := host_join host root file in
      (if len f >=? _maxpath then
         c <~ (if negb force then
                 msg <~ delete_prompt f ;; ui_promptchoice msg
               else tret 0) ;;
         if force || negb (c =? 0) then
           if host_has_unlink host then util_unlink f else util_unlinkpath f
         else tret tt
       else tret tt) ;;~
      cleanDir_files force root files' (Some f)
  end.

Fixpoint cleanDir_walk (force : bool)
    (triples : list (string * (list string * list string)))
    (f : option string) : T unit :=
  match triples with
  | [] => tret tt
  | (root, (dirs, files)) :: rest =>
      cleanDir_dirs force root dirs f ;;~
      f <~ cleanDir_files force root files f ;;
      cleanDir_walk force rest f
  end.

(** [cleanDir(ui, repo, force)], on [repo.root] *)
Definition cleanDir (root : string) (force : bool) : T unit :=
  cleanDir_walk force (host_walk host root) None.

(** [lfn(ui, repo, clean, force)] *)
Definition lfn (root : string) (clean force : bool) : T unit :=
  if clean then cleanDir root force else lfn_list root.

End Tools.

(** *** Vocabulary for the commands *)

(** The paths over the limits under one walked directory: sub-directories
    longer than [_maxpath], then files at least [_maxpath] long. *)
Definition long_dirs (host : Host) (root : string) (dirs : list string)
    : list string :=
  filter (fun d => len d >? _maxpath) (map (host_join host root) dirs).

Definition long_files (host : Host) (root : string) (files : list string)
    : list string :=
  filter (fun f => len f >=? _maxpath) (map (host_join host root) files).

Definition reported (host : Host) (root : string) : list string :=
  flat_map (fun t => long_dirs host (fst t) (fst (snd t))
                     ++ long_files host (fst t) (snd (snd t)))%list
           (host_walk host root).

(** The removals of a forced clean-up, in order. *)
Definition removals (host : Host) (root : string) : list tool_event :=
  flat_map (fun t =>
              map Rmdir (long_dirs host (fst t) (fst (snd t)))
              ++ map (if host_has_unlink host then Unlink else Unlinkpath)
                     (long_files host (fst t) (snd (snd t))))%list
           (host_walk host root).

(** [m] is the joined path of a file entry of the walk [all]. *)
Definition names_file (host : Host)
    (all : list (string * (list string * list string))) (m : string) : Prop :=
  exists r dirs files file,
    In (r, (dirs, files)) all /\ In file files /\ m = host_join host r file.

(** The path an event removes, if it removes one. *)
Definition removed (e : tool_event) : option string :=
  match e with
  | Rmdir d => Some d
  | Unlink f => Some f
  | Unlinkpath f => Some f
  | _ => None
  end.

(** A sample host: one long directory, holding one long file, under a short
    root that also holds a short file. *)
Definition long_name : string := repeat_str 30 "123456789_" ++ "d".

Definition sample_host : Host := {|
  host_walk := fun root =>
    [(root ++ "\" ++ long_name, ([], ["f.txt"]));
     (root, ([long_name], ["short.txt"]))];
  host_join := fun a b => a ++ "\" ++ b;
  host_promptchoice := fun _ _ => 0;
  host_rmdir := fun _ _ => None;
  host_unlink := fun _ _ => None;
  host_has_unlink := true;
  host_gettext := fun m => Some m
|}.

(** The sample host with the long directory empty. *)
Definition sample_host_empty_dir : Host := {|
  host_walk := fun root =>
    [(root ++ "\" ++ long_name, ([], []));
     (root, ([long_name], ["short.txt"]))];
  host_join := fun a b => a ++ "\" ++ b;
  host_promptchoice := fun _ _ => 1;
  host_rmdir := fun _ _ => None;
  host_unlink := fun _ _ => None;
  host_has_unlink := true;
  host_gettext := fun m => Some m
|}.

(** The sample world and the sample host under HGPLAIN, where [_] hands
    every message back as it is. *)
Definition sample_os_plain : Native := {|
  os_abspath := os_abspath sample_os;
  os_join := os_join sample_os;
  os_decode := os_decode sample_os;
  os_encode := os_encode sample_os;
  os_gettext := fun _ => None;
  os_exists := os_exists sample_os;
  os_chdir := os_chdir sample_os;
  os_warn := os_warn sample_os;
  os_find := os_find sample_os;
  os_mkdir := os_mkdir sample_os
|}.

Definition sample_host_plain : Host := {|
  host_walk := host_walk sample_host;
  host_join := host_join sample_host;
  host_promptchoice := host_promptchoice sample_host;
  host_rmdir := host_rmdir sample_host;
  host_unlink := host_unlink sample_host;
  host_has_unlink := host_has_unlink sample_host;
  host_gettext := fun _ => None
|}.

(** The sample world with a codec that knows ASCII only. *)
Fixpoint all_ascii (b : string) : bool :=
  match b with
  | EmptyString => true
  | String c r => (nat_of_ascii c <? 128)%nat && all_ascii r
  end.

Definition sample_os_ascii : Native := {|
  os_abspath := os_abspath sample_os;
  os_join := os_join sample_os;
  os_decode := fun b => if all_ascii b then Some b else None;
  os_encode := os_encode sample_os;
  os_gettext := os_gettext sample_os;
  os_exists := os_exists sample_os;
  os_chdir := os_chdir sample_os;
  os_warn := os_warn sample_os;
  os_find := os_find sample_os;
  os_mkdir := os_mkdir sample_os
|}.

(** A byte string that is not UTF-8: the single byte 255. *)
Definition not_utf8 : string := String (ascii_of_nat 255) EmptyString.

(** The sample world where a character above 127 stands for a lone surrogate:
    [str.encode] fails on a str that holds one. *)
Definition sample_os_strict : Native := {|
  os_abspath := os_abspath sample_os;
  os_join := os_join sample_os;
  os_decode := os_decode sample_os;
  os_encode := fun s => if all_ascii s then Some s else None;
  os_gettext := os_gettext sample_os;
  os_exists := os_exists sample_os;
  os_chdir := os_chdir sample_os;
  os_warn := os_warn sample_os;
  os_find := os_find sample_os;
  os_mkdir := os_mkdir sample_os
|}.

Definition lone_surrogate : string :=
  "C:\" ++ String (ascii_of_nat 216) EmptyString.

(** ** uncabspath *)

(** Unfolds the monad, leaving string tests folded. *)
Ltac run_m :=
  cbv beta iota delta
    [bind ret raise gets modify log set_last_error set_find_open set_real_cwd
     set__cwd try_finally];
  cbn [negb andb orb].

Section Uncabspath.

Variable os : Native.

Lemma startswith_uncprefix_app (x : string) :
  startswith (_uncprefix ++ x) _uncprefix = true.
Proof. reflexivity. Qed.

Lemma upper_reserved_fixed :
  forallb (fun r => String.eqb (upper r) r) _WINDOWS_RESERVED_NAMES = true.
Proof. reflexivity. Qed.

(** The test the code makes, [path.upper() in _WINDOWS_RESERVED_NAMES], is
    equality with a reserved name up to case. *)
Lemma mem_upper_reserved (p : string) :
  mem (upper p) _WINDOWS_RESERVED_NAMES = is_reserved p.
Proof. reflexivity. Qed.

Lemma uncabspath_guarded (p : string) (s : state) :
  already_encoded p = true ->
  uncabspath os (Str p) s = (Ret p, s).
Proof.
  unfold already_encoded, uncabspath, bytestostring.
  intros H. run_m. rewrite mem_upper_reserved.
  destruct (startswith p _uncprefix), (startswith p _deviceprefix),
    (is_reserved p); cbn [negb andb orb] in *; try reflexivity; discriminate.
Qed.

Lemma uncabspath_fresh (p : string) (s : state) :
  already_encoded p = false ->
  uncabspath os (Str p) s =
    (Ret (extended_form (os_abspath os (real_cwd s) p)),
     logged (CallAbspath p) s).
Proof.
  unfold already_encoded, uncabspath, bytestostring, abspath, extended_form.
  intros H. run_m. rewrite mem_upper_reserved.
  destruct (startswith p _uncprefix), (startswith p _deviceprefix),
    (is_reserved p); cbn [negb andb orb] in *; try discriminate.
  change (real_cwd (logged (CallAbspath p) s)) with (real_cwd s).
  destruct (startswith (os_abspath os (real_cwd s) p) _uncprefix); cbn [negb].
  - reflexivity.
  - destruct (startswith (os_abspath os (real_cwd s) p) "\\"); reflexivity.
Qed.

Lemma extended_form_marked (q : string) :
  startswith (extended_form q) _uncprefix = true.
Proof.
  unfold extended_form.
  destruct (startswith q _uncprefix) eqn:U; [exact U |].
  destruct (startswith q "\\"); reflexivity.
Qed.

(** C4. A string that starts with the extended-length marker or the device
    marker, or that is a reserved device name up to case, comes back from
    [uncabspath] unchanged and without any call leaving the module; and for
    every string [p], [uncabspath] returns some [q], and [uncabspath] of that
    [q] is [q] again. *)
Theorem uncabspath_idempotent (p : string) (s : state) :
  (already_encoded p = true -> uncabspath os (Str p) s = (Ret p, s)) /\
  (exists q s',
      uncabspath os (Str p) s = (Ret q, s') /\
      uncabspath os (Str q) s' = (Ret q, s')).
Proof.
  split; [apply uncabspath_guarded |].
  destruct (already_encoded p) eqn:E.
  - exists p, s. split; apply uncabspath_guarded; exact E.
  - eexists _, _. split; [apply uncabspath_fresh; exact E |].
    apply uncabspath_guarded. unfold already_encoded.
    rewrite extended_form_marked. reflexivity.
Qed.

(** C5. Let [q] be the absolute form of a path that is neither marked nor a
    device name, and let [q] not carry the extended marker.  If [q] begins
    with a double separator, [uncabspath] yields the marker, then [UNC], then
    [q] from its second separator on; otherwise it yields the marker followed
    by [q].  Either result is returned unchanged, with no further call, when
    it is given to [uncabspath] again. *)
Theorem uncabspath_unc_and_local (p : string) (s : state) :
  already_encoded p = false ->
  startswith (os_abspath os (real_cwd s) p) _uncprefix = false ->
  exists r,
    uncabspath os (Str p) s = (Ret r, logged (CallAbspath p) s) /\
    (startswith (os_abspath os (real_cwd s) p) "\\" = true ->
       r = "\\?\" ++ "UNC" ++ from1 (os_abspath os (real_cwd s) p)) /\
    (startswith (os_abspath os (real_cwd s) p) "\\" = false ->
       r = "\\?\" ++ os_abspath os (real_cwd s) p) /\
    (forall s', uncabspath os (Str r) s' = (Ret r, s')).
Proof.
  intros E U. eexists. split; [apply uncabspath_fresh; exact E |].
  unfold extended_form. rewrite U.
  destruct (startswith (os_abspath os (real_cwd s) p) "\\");
    (split; [intros; try reflexivity; discriminate |]);
    (split; [intros; try reflexivity; discriminate |]);
    intros s'; apply uncabspath_guarded; reflexivity.
Qed.

End Uncabspath.

Lemma uncabspath_idempotent_witness :
  uncabspath sample_os (Str "nul") sample_state = (Ret "nul", sample_state).
Proof.
  apply (proj1 (uncabspath_idempotent sample_os "nul" sample_state)).
  reflexivity.
Defined.

Lemma uncabspath_unc_and_local_witness :
  uncabspath sample_os (Str "\\server\share\x") sample_state
    = (Ret "\\?\UNC\server\share\x",
       logged (CallAbspath "\\server\share\x") sample_state) /\
  (forall s',
      uncabspath sample_os (Str "\\?\UNC\server\share\x") s'
        = (Ret "\\?\UNC\server\share\x", s')).
Proof.
  destruct (uncabspath_unc_and_local sample_os "\\server\share\x" sample_state
              eq_refl eq_refl) as [r [H1 [H2 [_ H4]]]].
  specialize (H2 eq_refl). subst r. split; assumption.
Defined.

(** The same on a drive path, and on the names the guard lets through. *)
Example uncabspath_drive_path :
  uncabspath sample_os (Str "D:\work") sample_state
    = (Ret "\\?\D:\work", logged (CallAbspath "D:\work") sample_state).
Proof. reflexivity. Qed.

Example uncabspath_relative_path :
  uncabspath sample_os (Str "a.txt") sample_state
    = (Ret "\\?\C:\work\a.txt", logged (CallAbspath "a.txt") sample_state).
Proof. reflexivity. Qed.

Example uncabspath_device_name :
  uncabspath sample_os (Str "Com3") sample_state = (Ret "Com3", sample_state).
Proof. reflexivity. Qed.

Example uncabspath_bytes_decoded :
  uncabspath sample_os (Bytes "\\.\pipe\x") sample_state
    = (Ret "\\.\pipe\x", sample_state).
Proof. reflexivity. Qed.

(** ** wrap1, wrap2: arguments that are not text *)

Section Wrappers.

Variable os : Native.

Lemma uncabspath_bytes (b : string) (s : state) :
  uncabspath os (Bytes b) s =
    match os_decode os b with
    | Some p => uncabspath os (Str p) s
    | None => (Raise UnicodeDecodeError, s)
    end.
Proof.
  unfold uncabspath, bytestostring. run_m.
  destruct (os_decode os b); reflexivity.
Qed.

Lemma uncabspath_non_text (v : value) (s : state) :
  is_str v = false -> is_bytes v = false ->
  uncabspath os v s =
    (Raise (TypeError (str v ++ " is not a string (" ++ str_of_type v ++ ")")), s).
Proof.
  destruct v; cbn [is_str is_bytes]; intros; try discriminate; reflexivity.
Qed.

(** C8. A wrapped primitive, of one path or of two, called with a first
    argument that is neither a [str] nor a [bytes], raises a [TypeError] whose
    message shows the value and its type, and leaves the state as it was: no
    call has left the module, and the wrapped [method] has not run.  The two
    replacements written by hand, [lfnlistdir] and [lfnmkdir], do the same. *)
Theorem wrap_rejects_non_text (method : method_t) (a0 : value)
    (rest : list value) (kwargs : list (string * value))
    (mode : option value) (s : state) :
  is_str a0 = false -> is_bytes a0 = false ->
  wrap1 os method (a0 :: rest) kwargs s =
    (Raise (TypeError (str a0 ++ " is not a string (" ++ str_of_type a0 ++ ")")), s) /\
  wrap2 os method (a0 :: rest) kwargs s =
    (Raise (TypeError (str a0 ++ " is not a string (" ++ str_of_type a0 ++ ")")), s) /\
  lfnlistdir os a0 s =
    (Raise (TypeError (str a0 ++ " is not a string (" ++ str_of_type a0 ++ ")")), s) /\
  lfnmkdir os a0 mode s =
    (Raise (TypeError (str a0 ++ " is not a string (" ++ str_of_type a0 ++ ")")), s).
Proof.
  intros Hs Hb. unfold wrap1, wrap2, lfnlistdir, lfnmkdir, bind.
  rewrite (uncabspath_non_text a0 s Hs Hb). repeat split; reflexivity.
Qed.

End Wrappers.

Lemma wrap_rejects_non_text_witness :
  wrap1 sample_os sample_method [Int 5; Str "r"] [] sample_state =
    (Raise (TypeError "5 is not a string (<class 'int'>)"), sample_state) /\
  wrap2 sample_os sample_method [Int 5; Str "r"] [] sample_state =
    (Raise (TypeError "5 is not a string (<class 'int'>)"), sample_state) /\
  lfnlistdir sample_os (Int 5) sample_state =
    (Raise (TypeError "5 is not a string (<class 'int'>)"), sample_state) /\
  lfnmkdir sample_os (Int 5) None sample_state =
    (Raise (TypeError "5 is not a string (<class 'int'>)"), sample_state).
Proof.
  exact (wrap_rejects_non_text sample_os sample_method (Int 5) [Str "r"] []
           None sample_state eq_refl eq_refl).
Defined.

(** ** lfnmkdir and the error table *)

Section Lfnmkdir.

Variable os : Native.

(** What [uncabspath] does to the state: nothing, or one logged [abspath]. *)
Lemma uncabspath_state (v : value) (s : state) :
  snd (uncabspath os v s) = s \/
  exists p, snd (uncabspath os v s) = logged (CallAbspath p) s.
Proof.
  assert (Hstr : forall p,
             snd (uncabspath os (Str p) s) = s \/
             exists p', snd (uncabspath os (Str p) s) = logged (CallAbspath p') s).
  { intros p. destruct (already_encoded p) eqn:E.
    - left. rewrite uncabspath_guarded by exact E. reflexivity.
    - right. exists p. rewrite uncabspath_fresh by exact E. reflexivity. }
  destruct v; try (left; reflexivity).
  - apply Hstr.
  - rewrite uncabspath_bytes. destruct (os_decode os b).
    + apply Hstr.
    + left. reflexivity.
Qed.

(** [lfnmkdir] once the path is encoded. *)
Lemma lfnmkdir_run (p : value) (mode : option value) (s : state)
    (q : string) (s1 : state) :
  uncabspath os p s = (Ret q, s1) ->
  lfnmkdir os p mode s =
    match os_mkdir os q with
    | None => (Ret tt, logged (CallCreateDirectory q None) s1)
    | Some code =>
        (match dict_get _errmap code with
         | Some pyerrno => Raise (OSError pyerrno "Error")
         | None => Raise (KeyError code)
         end,
         logged CallGetLastError
           (with_last_error code (logged (CallCreateDirectory q None) s1)))
    end.
Proof.
  intros U. unfold lfnmkdir, bind at 1. rewrite U.
  unfold _CreateDirectory, _GetLastError. run_m.
  destruct (os_mkdir os q) as [code |]; [| reflexivity].
  cbn [Z.eqb].
  change (last_error (logged CallGetLastError
            (with_last_error code (logged (CallCreateDirectory q None) s1))))
    with code.
  destruct (dict_get _errmap code); reflexivity.
Qed.

(** C9. When the native create call fails with the already-exists code,
    [lfnmkdir] raises an [OSError] of the already-exists kind that carries
    [EEXIST]. *)
Theorem lfnmkdir_already_exists (p : value) (mode : option value) (s : state)
    (q : string) (s1 : state) :
  uncabspath os p s = (Ret q, s1) ->
  os_mkdir os q = Some _ERROR_ALREADY_EXISTS ->
  exists s', lfnmkdir os p mode s = (Raise (OSError_ FileExistsError EEXIST "Error"), s').
Proof.
  intros U C. rewrite (lfnmkdir_run p mode s q s1 U), C.
  eexists. reflexivity.
Qed.

(** C10. Two calls of [lfnmkdir] that differ only in the mode give the same
    outcome and the same final state, log of calls included; and every
    [CreateDirectory] call [lfnmkdir] adds to the log has a null security
    descriptor. *)
Theorem lfnmkdir_ignores_mode (p : value) (m1 m2 : option value) (s : state) :
  lfnmkdir os p m1 s = lfnmkdir os p m2 s /\
  forall q sec,
    In (CallCreateDirectory q sec) (trace (snd (lfnmkdir os p m1 s))) ->
    In (CallCreateDirectory q sec) (trace s) \/ sec = None.
Proof.
  split; [reflexivity |].
  intros q sec.
  destruct (uncabspath os p s) as [r s1] eqn:U.
  assert (Hs1 : forall c, In c (trace s1) ->
                  In c (trace s) \/ exists p', c = CallAbspath p').
  { intros c Hc. destruct (uncabspath_state p s) as [E | [p' E]];
      rewrite U in E; cbn [snd] in E; subst s1.
    - left. exact Hc.
    - cbn [trace logged] in Hc. apply in_app_or in Hc.
      destruct Hc as [Hc | [Hc | []]]; [left; exact Hc | right; eauto]. }
  destruct r as [q0 | e |].
  - rewrite (lfnmkdir_run p m1 s q0 s1 U).
    destruct (os_mkdir os q0) as [code |]; cbn [snd trace logged with_last_error];
      intros H;
      repeat (apply in_app_or in H; destruct H as [H | [H | []]]);
      try discriminate H;
      try (injection H as _ <-; right; reflexivity);
      (destruct (Hs1 _ H) as [H' | [p' H']]; [left; exact H' | discriminate H']).
  - unfold lfnmkdir, bind. rewrite U. cbn [snd]. intros H.
    destruct (Hs1 _ H) as [H' | [p' H']]; [left; exact H' | discriminate H'].
  - unfold lfnmkdir, bind. rewrite U. cbn [snd]. intros H.
    destruct (Hs1 _ H) as [H' | [p' H']]; [left; exact H' | discriminate H'].
Qed.

(** C3, as amended.  The table [_errmap] lists the native path-not-found and
    already-exists codes and no other, mapping them to [ENOENT] and [EEXIST];
    and when the native create call fails with a listed code, [lfnmkdir]
    raises an [OSError] that carries the mapped code. *)
Theorem errmap_lists_two_codes :
  dict_get _errmap _ERROR_PATH_NOT_FOUND = Some ENOENT /\
  dict_get _errmap _ERROR_ALREADY_EXISTS = Some EEXIST /\
  (forall code,
      code <> _ERROR_PATH_NOT_FOUND -> code <> _ERROR_ALREADY_EXISTS ->
      dict_get _errmap code = None) /\
  (forall p mode s q s1 code pyerrno,
      uncabspath os p s = (Ret q, s1) ->
      os_mkdir os q = Some code ->
      dict_get _errmap code = Some pyerrno ->
      exists s', lfnmkdir os p mode s = (Raise (OSError pyerrno "Error"), s')).
Proof.
  split; [reflexivity |]. split; [reflexivity |]. split.
  - intros code H3 H183. unfold _errmap, dict_get.
    destruct (Z.eqb_spec _ERROR_PATH_NOT_FOUND code); [congruence |].
    destruct (Z.eqb_spec _ERROR_ALREADY_EXISTS code); [congruence |].
    reflexivity.
  - intros p mode s q s1 code pyerrno U C D.
    rewrite (lfnmkdir_run p mode s q s1 U), C, D. eexists. reflexivity.
Qed.

End Lfnmkdir.

Lemma lfnmkdir_already_exists_witness :
  exists s',
    lfnmkdir sample_os (Str "C:\work") None sample_state =
      (Raise (OSError_ FileExistsError EEXIST "Error"), s').
Proof.
  exact (lfnmkdir_already_exists sample_os (Str "C:\work") None sample_state
           "\\?\C:\work" (logged (CallAbspath "C:\work") sample_state)
           eq_refl eq_refl).
Defined.

(** A native failure code the table does not list: the lookup fails. *)
Example lfnmkdir_unlisted_code :
  fst (lfnmkdir sample_os (Str "C:\locked\new") None sample_state)
    = Raise (KeyError 5).
Proof. reflexivity. Qed.

Example lfnmkdir_created :
  fst (lfnmkdir sample_os (Str "C:\work\new") None sample_state) = Ret tt.
Proof. reflexivity. Qed.

(** C3 as the specification has it fails: the native file-not-found code has
    no entry in the table. *)
Lemma errmap_lacks_file_not_found :
  ~ (exists pyerrno, dict_get _errmap _ERROR_FILE_NOT_FOUND = Some pyerrno).
Proof. intros [e H]. discriminate H. Qed.

Lemma errmap_lists_two_codes_witness :
  exists s',
    lfnmkdir sample_os (Str "C:\work") None sample_state =
      (Raise (OSError EEXIST "Error"), s').
Proof.
  exact (proj2 (proj2 (proj2 (errmap_lists_two_codes sample_os)))
           (Str "C:\work") None sample_state
           "\\?\C:\work" (logged (CallAbspath "C:\work") sample_state)
           183 EEXIST eq_refl eq_refl eq_refl).
Defined.

(** ** lfnlistdir *)

Section Lfnlistdir.

Variable os : Native.

Lemma FindNextFile_open (h : Z) (out : string) (s : state) (rest : list string) :
  find_open s = Some (h, rest) ->
  _FindNextFile h out s =
    match rest with
    | n :: rest' =>
        (Ret (true, n),
         with_find_open (Some (h, rest')) (logged (CallFindNextFile h) s))
    | [] =>
        (Ret (false, out), with_last_error 18 (logged (CallFindNextFile h) s))
    end.
Proof.
  intros H. unfold _FindNextFile. run_m.
  change (find_open (logged (CallFindNextFile h) s)) with (find_open s).
  rewrite H, Z.eqb_refl. destruct rest; reflexivity.
Qed.

Lemma FindNextFile_closed (h : Z) (out : string) (s : state) :
  find_open s = None ->
  _FindNextFile h out s =
    (Ret (false, out), with_last_error 6 (logged (CallFindNextFile h) s)).
Proof.
  intros H. unfold _FindNextFile. run_m.
  change (find_open (logged (CallFindNextFile h) s)) with (find_open s).
  rewrite H. reflexivity.
Qed.

(** The loop over an open handle: every name is appended, as a [bytes], in
    the order of delivery; one round more than there are names pending is
    enough fuel. *)
Lemma lfnlistdir_loop_open (h : Z) (rest : list string) :
  forall (out : string) (result : list value) (s : state),
    find_open s = Some (h, rest) ->
    exists s',
      lfnlistdir_loop (S (List.length rest)) h out result s =
        (Ret (result ++ map Bytes (out :: rest))%list, s') /\
      find_open s' = Some (h, []).
Proof.
  induction rest as [| n rest IH]; intros out result s H.
  - cbn [lfnlistdir_loop List.length eq negb andb]. unfold bind at 1.
    rewrite (FindNextFile_open h out s [] H). cbn [fst snd negb].
    eexists. split; [reflexivity |]. exact H.
  - cbn [List.length].
    change (lfnlistdir_loop (S (S (List.length rest))) h out result s)
      with (bind (_FindNextFile h out)
              (fun r => if negb (fst r) then ret (result ++ [Bytes out])%list
                        else lfnlistdir_loop (S (List.length rest)) h (snd r)
                               (result ++ [Bytes out])%list) s).
    unfold bind at 1.
    rewrite (FindNextFile_open h out s (n :: rest) H). cbn [fst snd negb].
    destruct (IH n (result ++ [Bytes out])%list
                (with_find_open (Some (h, rest)) (logged (CallFindNextFile h) s))
                eq_refl) as [s' [E F]].
    exists s'. split; [| exact F].
    rewrite E. cbn [map]. rewrite <- app_assoc. reflexivity.
Qed.

(** The fuel [lfnlistdir] gives the loop is enough in every state. *)
Lemma lfnlistdir_loop_fuel (fuel : nat) :
  forall (fldr : Z) (out : string) (result : list value) (s : state),
    (pending fldr s < fuel)%nat ->
    fst (lfnlistdir_loop fuel fldr out result s) <> OutOfFuel.
Proof.
  induction fuel as [| fuel IH]; intros fldr out result s Hp; [lia |].
  cbn [lfnlistdir_loop]. unfold bind at 1.
  unfold pending in Hp.
  destruct (find_open s) as [[h rest] |] eqn:F.
  - destruct (Z.eqb_spec h fldr) as [-> | Hne].
    + rewrite (FindNextFile_open fldr out s rest F).
      destruct rest as [| n rest']; cbn [fst snd negb]; [discriminate |].
      apply IH. unfold pending. cbn [find_open with_find_open].
      rewrite Z.eqb_refl. cbn [List.length] in Hp. lia.
    + unfold _FindNextFile. run_m.
      change (find_open (logged (CallFindNextFile fldr) s)) with (find_open s).
      rewrite F. apply Z.eqb_neq in Hne. rewrite Hne. discriminate.
  - rewrite (FindNextFile_closed fldr out s F). discriminate.
Qed.

Lemma uncabspath_no_fuel (v : value) (s : state) :
  fst (uncabspath os v s) <> OutOfFuel.
Proof.
  assert (Hstr : forall p, fst (uncabspath os (Str p) s) <> OutOfFuel).
  { intros p. destruct (already_encoded p) eqn:E.
    - rewrite uncabspath_guarded by exact E. discriminate.
    - rewrite uncabspath_fresh by exact E. discriminate. }
  destruct v; try discriminate.
  - apply Hstr.
  - rewrite uncabspath_bytes. destruct (os_decode os b); [apply Hstr | discriminate].
Qed.

(** [lfnlistdir] always ends: with a list or with an exception. *)
Lemma lfnlistdir_ends (p : value) (s : state) :
  fst (lfnlistdir os p s) <> OutOfFuel.
Proof.
  unfold lfnlistdir. unfold bind at 1.
  pose proof (uncabspath_no_fuel p s) as Hu.
  destruct (uncabspath os p s) as [[q | e |] s1]; cbn [fst] in *;
    [| discriminate | contradiction].
  unfold bind at 1.
  destruct (_FindFirstFile os (os_join os q "*") "" s1) as [[r | e |] s2] eqn:FF;
    [| discriminate |].
  2:{ unfold _FindFirstFile in FF. revert FF. run_m.
      destruct (os_find os _); discriminate. }
  unfold bind at 1.
  match goal with
  | |- fst (match ?m s2 with _ => _ end) <> _ => destruct (m s2) as [[[] | e |] s3] eqn:G
  end; [| discriminate |].
  2:{ revert G. unfold _GetLastError. run_m.
      destruct (fst r =? _INVALID_HANDLE_VALUE); [| discriminate].
      destruct (negb _ && negb _); discriminate. }
  run_m.
  pose proof (lfnlistdir_loop_fuel (S (pending (fst r) s3)) (fst r) (snd r) [] s3
                (Nat.lt_succ_diag_r _)) as HL.
  destruct (lfnlistdir_loop (S (pending (fst r) s3)) (fst r) (snd r) [] s3)
    as [o s4].
  cbn [fst] in HL. unfold _FindClose. run_m.
  destruct (find_open (logged (CallFindClose (fst r)) s4)) as [[h ?] |];
    [destruct (h =? fst r) |]; exact HL.
Qed.

(** Whatever the handle delivers, the loop appends the name it starts with. *)
Lemma lfnlistdir_loop_appends (fuel : nat) :
  forall (fldr : Z) (out : string) (result rs : list value) (s s' : state),
    lfnlistdir_loop fuel fldr out result s = (Ret rs, s') ->
    exists more, rs = (result ++ Bytes out :: more)%list.
Proof.
  induction fuel as [| fuel IH]; intros fldr out result rs s s'; [discriminate |].
  cbn [lfnlistdir_loop eq negb andb]. unfold bind at 1.
  destruct (_FindNextFile fldr out s) as [[r | e |] s1]; try discriminate.
  destruct (negb (fst r)).
  - intros E. injection E as <- _. exists []. reflexivity.
  - intros E. destruct (IH _ _ _ _ _ _ E) as [more ->].
    exists (Bytes (snd r) :: more). rewrite <- app_assoc. reflexivity.
Qed.

(** X17.  Whenever [lfnlistdir] returns a list, the list is not empty: the
    loop appends the name in the buffer before it asks for the next one, and
    no name, the empty one included, equals a [str] literal. *)
Lemma lfnlistdir_never_empty (p : value) (s : state) (rs : list value)
    (s' : state) :
  lfnlistdir os p s = (Ret rs, s') -> rs <> [].
Proof.
  unfold lfnlistdir. unfold bind at 1.
  destruct (uncabspath os p s) as [[q | e |] s1]; try discriminate.
  unfold bind at 1.
  destruct (_FindFirstFile os (os_join os q "*") "" s1) as [[r | e |] s2];
    try discriminate.
  unfold bind at 1.
  match goal with
  | |- match ?m s2 with _ => _ end = _ -> _ => destruct (m s2) as [[[] | e |] s3]
  end; try discriminate.
  run_m.
  destruct (lfnlistdir_loop (S (pending (fst r) s3)) (fst r) (snd r) [] s3)
    as [o s4] eqn:L.
  destruct (_FindClose (fst r) s4) as [[[] | e |] s5]; try discriminate.
  intros E. injection E as -> _.
  destruct (lfnlistdir_loop_appends _ _ _ _ _ _ _ L) as [more ->].
  discriminate.
Qed.

Lemma uncabspath_keeps_find_open (v : value) (s : state) :
  find_open (snd (uncabspath os v s)) = find_open s.
Proof.
  destruct (uncabspath_state os v s) as [E | [p E]]; rewrite E; reflexivity.
Qed.

(** C2, what the code does.  When the open call succeeds, [lfnlistdir]
    returns every name the native iteration delivers, in that order, each as a
    [bytes]: the comparison of the [bytes] in the buffer with the [str]
    literals for the pseudo-entries is never true, so nothing is left out.
    The handle is closed on return. *)
Theorem lfnlistdir_keeps_every_name (p : value) (s : state) (q : string)
    (s1 : state) (h : Z) (first : string) (rest : list string) :
  uncabspath os p s = (Ret q, s1) ->
  os_find os (os_join os q "*") = Opened h first rest ->
  h <> _INVALID_HANDLE_VALUE ->
  exists s',
    lfnlistdir os p s = (Ret (map Bytes (first :: rest)), s') /\
    find_open s' = None.
Proof.
  intros U F Hh. unfold lfnlistdir. unfold bind at 1. rewrite U.
  unfold _FindFirstFile. run_m. rewrite F. cbn [fst snd].
  apply Z.eqb_neq in Hh. rewrite Hh.
  unfold pending.
  change (find_open (with_find_open (Some (h, rest))
                       (logged (CallFindFirstFile (os_join os q "*")) s1)))
    with (Some (h, rest)).
  cbv iota beta. rewrite Z.eqb_refl.
  destruct (lfnlistdir_loop_open h rest first []
              (with_find_open (Some (h, rest))
                 (logged (CallFindFirstFile (os_join os q "*")) s1))
              eq_refl) as [s' [E C]].
  rewrite E. unfold _FindClose. run_m.
  change (find_open (logged (CallFindClose h) s')) with (find_open s').
  rewrite C, Z.eqb_refl. eexists. split; reflexivity.
Qed.

(** C1, what the code does.  When the open call fails with the
    path-not-found or the file-not-found code, [lfnlistdir] does not raise,
    but the loop still runs once over the untouched buffer: the result is the
    list holding one empty name, not the empty list.  With any other code it
    raises a [ValueError] whose message carries the encoded path and the
    code. *)
Theorem lfnlistdir_open_failure (p : value) (s : state) (q : string)
    (s1 : state) (code : Z) :
  uncabspath os p s = (Ret q, s1) ->
  find_open s = None ->
  os_find os (os_join os q "*") = NotOpened code ->
  (code = _ERROR_PATH_NOT_FOUND \/ code = _ERROR_FILE_NOT_FOUND ->
     exists s', lfnlistdir os p s = (Ret [Bytes ""], s')) /\
  (code <> _ERROR_PATH_NOT_FOUND -> code <> _ERROR_FILE_NOT_FOUND ->
     exists s',
       lfnlistdir os p s =
         (Raise (ValueError ("invalid handle (" ++ q ++ ", "
                             ++ str_of_int code ++ ")! ")), s')).
Proof.
  intros U N F.
  assert (N1 : find_open s1 = None).
  { rewrite <- N, <- (uncabspath_keeps_find_open p s), U. reflexivity. }
  assert (R : lfnlistdir os p s =
    ((if negb (code =? _ERROR_PATH_NOT_FOUND) && negb (code =? _ERROR_FILE_NOT_FOUND)
      then raise (ValueError ("invalid handle (" ++ q ++ ", "
                              ++ str_of_int code ++ ")! "))
      else ret tt) ;;;
     n <- gets (pending _INVALID_HANDLE_VALUE) ;;
     try_finally (lfnlistdir_loop (S n) _INVALID_HANDLE_VALUE "" [])
       (_FindClose _INVALID_HANDLE_VALUE))
      (logged CallGetLastError
         (with_last_error code
            (logged (CallFindFirstFile (os_join os q "*")) s1)))).
  { unfold lfnlistdir. unfold bind at 1. rewrite U.
    unfold _FindFirstFile, _GetLastError. run_m. rewrite F. cbn [fst snd].
    rewrite Z.eqb_refl. reflexivity. }
  rewrite R. clear R. split.
  - intros [-> | ->]; cbn [Z.eqb _ERROR_PATH_NOT_FOUND _ERROR_FILE_NOT_FOUND
                            Pos.eqb negb andb];
      run_m; unfold pending; cbn [find_open logged with_last_error];
      rewrite N1; cbn [lfnlistdir_loop eq negb andb app]; unfold bind at 1;
      (rewrite FindNextFile_closed by exact N1); cbn [fst snd negb];
      unfold _FindClose; run_m; cbn [find_open logged with_last_error];
      rewrite N1; eexists; reflexivity.
  - intros H3 H2. apply Z.eqb_neq in H3, H2. rewrite H3, H2. cbn [negb andb].
    eexists. reflexivity.
Qed.

End Lfnlistdir.

Lemma lfnlistdir_keeps_every_name_witness :
  exists s',
    lfnlistdir sample_os (Str "C:\work") sample_state =
      (Ret [Bytes "."; Bytes ".."; Bytes "a.txt"; Bytes "sub"], s') /\
    find_open s' = None.
Proof.
  refine (lfnlistdir_keeps_every_name sample_os (Str "C:\work") sample_state
            "\\?\C:\work" (logged (CallAbspath "C:\work") sample_state)
            7 "." [".."; "a.txt"; "sub"] eq_refl eq_refl _).
  discriminate.
Defined.

Example lfnlistdir_other_failure :
  fst (lfnlistdir sample_os (Str "C:\locked") sample_state)
    = Raise (ValueError "invalid handle (\\?\C:\locked, 5)! ").
Proof. reflexivity. Qed.

(** The calls [lfnlistdir] makes on a directory of four names. *)
Example lfnlistdir_trace :
  trace (snd (lfnlistdir sample_os (Str "C:\work") sample_state))
    = [CallAbspath "C:\work"; CallFindFirstFile "\\?\C:\work\*";
       CallFindNextFile 7; CallFindNextFile 7; CallFindNextFile 7;
       CallFindNextFile 7; CallFindClose 7].
Proof. reflexivity. Qed.

Lemma lfnlistdir_open_failure_witness :
  exists s',
    lfnlistdir sample_os (Str "C:\missing") sample_state = (Ret [Bytes ""], s').
Proof.
  apply (proj1 (lfnlistdir_open_failure sample_os (Str "C:\missing") sample_state
                  "\\?\C:\missing"
                  (logged (CallAbspath "C:\missing") sample_state)
                  _ERROR_PATH_NOT_FOUND eq_refl eq_refl eq_refl)).
  left. reflexivity.
Defined.

(** ** lfnchdir *)

Section Lfnchdir.

Variable os : Native.

Lemma uncabspath_encoded (p : string) (s : state) :
  uncabspath os (Str p) s = (Ret (encoded os (real_cwd s) p), after_encoding p s).
Proof.
  unfold encoded, after_encoding. destruct (already_encoded p) eqn:E.
  - apply uncabspath_guarded. exact E.
  - apply uncabspath_fresh. exact E.
Qed.

Lemma encoded_already_encoded (cwd p : string) :
  already_encoded (encoded os cwd p) = true.
Proof.
  unfold encoded. destruct (already_encoded p) eqn:E; [exact E |].
  unfold already_encoded. rewrite extended_form_marked. reflexivity.
Qed.

Lemma real_cwd_after_encoding (p : string) (s : state) :
  real_cwd (after_encoding p s) = real_cwd s.
Proof. unfold after_encoding. destruct (already_encoded p); reflexivity. Qed.

Lemma cwd_after_encoding (p : string) (s : state) :
  _cwd (after_encoding p s) = _cwd s.
Proof. unfold after_encoding. destruct (already_encoded p); reflexivity. Qed.


Lemma real_cwd_logged (c : call) (s : state) :
  real_cwd (logged c s) = real_cwd s.
Proof. reflexivity. Qed.

Lemma real_cwd_with_real_cwd (a : string) (s : state) :
  real_cwd (with_real_cwd a s) = a.
Proof. reflexivity. Qed.

Lemma chdir_target_long (path : string) (s : state) :
  (len (os_abspath os (real_cwd s) path) >=? _maxdirpath) = true ->
  chdir_target os s path
    = encoded os (real_cwd s) (os_abspath os (real_cwd s) path).
Proof. intros L. unfold chdir_target, encoded. rewrite L. reflexivity. Qed.

Lemma chdir_target_short (path : string) (s : state) :
  (len (os_abspath os (real_cwd s) path) >=? _maxdirpath) = false ->
  chdir_target os s path
    = encoded os (os_abspath os (real_cwd s) path)
        (os_abspath os (real_cwd s) path).
Proof. intros L. unfold chdir_target, encoded. rewrite L. reflexivity. Qed.

Lemma chdir_target_encoded (s : state) (path : string) :
  already_encoded (chdir_target os s path) = true.
Proof.
  unfold chdir_target. cbv zeta.
  destruct (already_encoded (os_abspath os (real_cwd s) path)) eqn:E; [exact E |].
  unfold already_encoded. rewrite extended_form_marked. reflexivity.
Qed.

Lemma lfnchdir_run (path : string) (s : state) :
  lfnchdir os path s =
    match
      (if len (os_abspath os (real_cwd s) path) >=? _maxdirpath then
         msg <- gettext_percent os long_chdir_warning
                  (os_abspath os (real_cwd s) path) ;;
         ui_warn os msg
       else native_chdir os (os_abspath os (real_cwd s) path))
        (logged (CallAbspath path) s)
    with
    | (Ret _, s2) =>
        (path <- uncabspath os (Str (os_abspath os (real_cwd s) path)) ;;
         e <- path_exists os path ;;
         if e then set__cwd path
         else
           msg <- gettext_percent os "Directory doesn't exist: " path ;;
           raise (OSError ENOENT msg)) s2
    | (Raise e, s2) => (Raise e, s2)
    | (OutOfFuel, s2) => (OutOfFuel, s2)
    end.
Proof. reflexivity. Qed.

(** The part of [lfnchdir] after the native call or the warning. *)
Lemma lfnchdir_check (a : string) (s2 : state) :
  (path <- uncabspath os (Str a) ;;
   e <- path_exists os path ;;
   if e then set__cwd path
   else
     msg <- gettext_percent os "Directory doesn't exist: " path ;;
     raise (OSError ENOENT msg)) s2 =
  (let q := encoded os (real_cwd s2) a in
   let s4 := logged (CallExists q) (after_encoding a s2) in
   if os_exists os q then (Ret tt, with__cwd q s4)
   else (Raise (missing_directory_error os q), s4)).
Proof.
  unfold bind at 1. rewrite uncabspath_encoded.
  unfold path_exists, gettext_percent, missing_directory_error. run_m. cbv zeta.
  change ("Directory doesn't exist: " ++ "%s") with "Directory doesn't exist: %s".
  destruct (os_exists os _); [reflexivity |].
  destruct (os_gettext os "Directory doesn't exist: %s"); reflexivity.
Qed.

(** [lfnchdir] on a long path, and on a short one. *)
Lemma lfnchdir_long (path : string) (s : state) :
  (len (os_abspath os (real_cwd s) path) >=? _maxdirpath) = true ->
  lfnchdir os path s =
    (let a := os_abspath os (real_cwd s) path in
     match os_gettext os (long_chdir_warning ++ "%s") with
     | Some _ =>
         (Raise (TypeError bytes_percent_str), logged (CallAbspath path) s)
     | None =>
         let s2 := logged (CallWarn (long_chdir_warning ++ a))
                     (logged (CallAbspath path) s) in
         match os_warn os (long_chdir_warning ++ a) with
         | Some e => (Raise e, s2)
         | None =>
             let q := encoded os (real_cwd s) a in
             let s4 := logged (CallExists q) (after_encoding a s2) in
             if os_exists os q then (Ret tt, with__cwd q s4)
             else (Raise (missing_directory_error os q), s4)
         end
     end).
Proof.
  intros L. rewrite lfnchdir_run, L. cbv zeta.
  unfold gettext_percent at 1.
  destruct (os_gettext os (long_chdir_warning ++ "%s")); [reflexivity |].
  unfold ui_warn. cbv beta iota delta [log modify bind ret].
  destruct (os_warn os _); [reflexivity |].
  fold (@bind string unit). fold (@bind bool unit).
  apply (lfnchdir_check (os_abspath os (real_cwd s) path)
           (logged (CallWarn (long_chdir_warning
                              ++ os_abspath os (real_cwd s) path))
              (logged (CallAbspath path) s))).
Qed.

Lemma lfnchdir_short (path : string) (s : state) :
  (len (os_abspath os (real_cwd s) path) >=? _maxdirpath) = false ->
  lfnchdir os path s =
    (let a := os_abspath os (real_cwd s) path in
     let s1 := logged (CallChdir a) (logged (CallAbspath path) s) in
     match os_chdir os a with
     | Some e => (Raise e, s1)
     | None =>
         let q := encoded os a a in
         let s4 := logged (CallExists q) (after_encoding a (with_real_cwd a s1)) in
         if os_exists os q then (Ret tt, with__cwd q s4)
         else (Raise (missing_directory_error os q), s4)
     end).
Proof.
  intros L. rewrite lfnchdir_run, L. cbv zeta.
  unfold native_chdir. cbv beta iota delta [log modify].
  unfold bind at 1.
  destruct (os_chdir os (os_abspath os (real_cwd s) path)) as [e |];
    [reflexivity |].
  cbv beta iota delta [set_real_cwd modify].
  apply (lfnchdir_check (os_abspath os (real_cwd s) path)
           (with_real_cwd (os_abspath os (real_cwd s) path)
              (logged (CallChdir (os_abspath os (real_cwd s) path))
                 (logged (CallAbspath path) s)))).
Qed.

(** The two ways [lfnchdir] ends. *)
Lemma lfnchdir_outcome (path : string) (s : state) :
  exists s0,
    _cwd s0 = _cwd s /\
    ((os_exists os (chdir_target os s path) = true /\
      lfnchdir os path s = (Ret tt, with__cwd (chdir_target os s path) s0)) \/
     (exists e, lfnchdir os path s = (Raise e, s0))).
Proof.
  destruct (len (os_abspath os (real_cwd s) path) >=? _maxdirpath) eqn:L.
  - rewrite (lfnchdir_long path s L), (chdir_target_long path s L). cbv zeta.
    destruct (os_gettext os (long_chdir_warning ++ "%s")).
    + eexists. split; [| right; eexists; reflexivity]. reflexivity.
    + destruct (os_warn os _).
      { eexists. split; [| right; eexists; reflexivity]. reflexivity. }
      destruct (os_exists os _) eqn:X.
      * eexists. split; [| left; split; reflexivity].
        cbn [_cwd logged]. rewrite cwd_after_encoding. reflexivity.
      * eexists. split; [| right; eexists; reflexivity].
        cbn [_cwd logged]. rewrite cwd_after_encoding. reflexivity.
  - rewrite (lfnchdir_short path s L), (chdir_target_short path s L). cbv zeta.
    destruct (os_chdir os _).
    + eexists. split; [| right; eexists; reflexivity]. reflexivity.
    + destruct (os_exists os _) eqn:X.
      * eexists. split; [| left; split; reflexivity].
        cbn [_cwd logged]. rewrite cwd_after_encoding. reflexivity.
      * eexists. split; [| right; eexists; reflexivity].
        cbn [_cwd logged]. rewrite cwd_after_encoding. reflexivity.
Qed.

(** C7, what the code does.  [_cwd] is set only on the branch where
    [os.path.exists] holds of the encoded absolute target, and every failure
    leaves it as it was, as the specification has it.  What [lfnchdir] raises
    is not what the specification says.  Both messages are built as
    [_(...) % path]
    with a str [path]; where [_] returns a [bytes], as Mercurial's does unless
    translations are switched off, that is a [TypeError].  So
    - a target of 248 characters or more, existing or not, raises that
      [TypeError] before the warning is written and before the existence
      check; nothing is stored;
    - a missing target that gets to the existence check raises that
      [TypeError], not the [OSError] with [ENOENT];
    - a target under 248 characters goes to the native chdir first, and what
      that raises, whatever it is, is what the caller gets;
    - where [_] hands the message back as a str, the warning for a long
      target is written, and what [ui.warn] raises, if it does, is what the
      caller gets; past that, an existing target is stored and a missing one
      raises [OSError] with [ENOENT]. *)
Theorem lfnchdir_sets_cwd_only_if_exists (path : string) (s : state) :
  (forall s',
      lfnchdir os path s = (Ret tt, s') ->
      os_exists os (chdir_target os s path) = true /\
      _cwd s' = Some (chdir_target os s path)) /\
  (forall r s',
      lfnchdir os path s = (r, s') -> r <> Ret tt -> _cwd s' = _cwd s) /\
  ((len (os_abspath os (real_cwd s) path) >=? _maxdirpath) = true ->
     (forall b,
         os_gettext os (long_chdir_warning ++ "%s") = Some b ->
         lfnchdir os path s =
           (Raise (TypeError bytes_percent_str), logged (CallAbspath path) s)) /\
     (os_gettext os (long_chdir_warning ++ "%s") = None ->
        (forall e,
            os_warn os (long_chdir_warning ++ os_abspath os (real_cwd s) path)
              = Some e ->
            exists s', lfnchdir os path s = (Raise e, s') /\ _cwd s' = _cwd s) /\
        (os_warn os (long_chdir_warning ++ os_abspath os (real_cwd s) path)
           = None ->
           (os_exists os (chdir_target os s path) = true ->
              exists s', lfnchdir os path s = (Ret tt, s') /\
                         _cwd s' = Some (chdir_target os s path)) /\
           (os_exists os (chdir_target os s path) = false ->
              exists s',
                lfnchdir os path s =
                  (Raise (missing_directory_error os (chdir_target os s path)),
                   s') /\
                _cwd s' = _cwd s)))) /\
  ((len (os_abspath os (real_cwd s) path) >=? _maxdirpath) = false ->
     (forall e,
         os_chdir os (os_abspath os (real_cwd s) path) = Some e ->
         exists s', lfnchdir os path s = (Raise e, s') /\ _cwd s' = _cwd s) /\
     (os_chdir os (os_abspath os (real_cwd s) path) = None ->
        (os_exists os (chdir_target os s path) = true ->
           exists s', lfnchdir os path s = (Ret tt, s') /\
                      _cwd s' = Some (chdir_target os s path)) /\
        (os_exists os (chdir_target os s path) = false ->
           exists s',
             lfnchdir os path s =
               (Raise (missing_directory_error os (chdir_target os s path)), s') /\
             _cwd s' = _cwd s))) /\
  (forall q,
      (forall b,
          os_gettext os "Directory doesn't exist: %s" = Some b ->
          missing_directory_error os q = TypeError bytes_percent_str) /\
      (os_gettext os "Directory doesn't exist: %s" = None ->
       missing_directory_error os q
         = OSError ENOENT ("Directory doesn't exist: " ++ q) /\
       errno_of (missing_directory_error os q) = Some ENOENT)).
Proof.
  split; [| split; [| split; [| split]]].
  - intros s' H.
    destruct (lfnchdir_outcome path s) as [s0 [C [[X E] | [e E]]]];
      rewrite E in H; [| discriminate H].
    split; [exact X |]. assert (Hs : s' = with__cwd (chdir_target os s path) s0)
      by congruence. rewrite Hs. reflexivity.
  - intros r s' H N.
    destruct (lfnchdir_outcome path s) as [s0 [C [[X E] | [e E]]]];
      rewrite E in H.
    + contradiction N. congruence.
    + assert (Hs : s' = s0) by congruence. rewrite Hs. exact C.
  - intros L. rewrite (lfnchdir_long path s L), (chdir_target_long path s L).
    cbv zeta. split.
    + intros b G. rewrite G. reflexivity.
    + intros G. rewrite G. split.
      * intros e W. rewrite W. eexists. split; reflexivity.
      * intros W. rewrite W. split; intros X; rewrite X; eexists;
          (split; [reflexivity |]); cbn [_cwd with__cwd logged];
          [reflexivity | rewrite cwd_after_encoding; reflexivity].
  - intros L. rewrite (lfnchdir_short path s L), (chdir_target_short path s L).
    cbv zeta. split.
    + intros e D. rewrite D. eexists. split; reflexivity.
    + intros D. rewrite D. split; intros X; rewrite X; eexists;
        (split; [reflexivity |]); cbn [_cwd with__cwd logged];
        [reflexivity | rewrite cwd_after_encoding; reflexivity].
  - intros q. unfold missing_directory_error. split.
    + intros b G. rewrite G. reflexivity.
    + intros G. rewrite G. split; reflexivity.
Qed.

End Lfnchdir.

Example lfnchdir_existing :
  fst (lfnchdir sample_os "C:\work" sample_state) = Ret tt /\
  _cwd (snd (lfnchdir sample_os "C:\work" sample_state)) = Some "\\?\C:\work".
Proof. split; reflexivity. Qed.

Example lfnchdir_missing_short :
  fst (lfnchdir sample_os "C:\gone" sample_state)
    = Raise (OSError ENOENT "The system cannot find the file specified").
Proof. reflexivity. Qed.

(** With [_] handing the message back, the long target, which is missing
    in the sample world, gets the error the module means to raise. *)
Example lfnchdir_long_plain :
  fst (lfnchdir sample_os_plain ("C:\" ++ repeat_str 30 "123456789\")
         sample_state)
    = Raise (OSError ENOENT
               ("Directory doesn't exist: \\?\C:\" ++ repeat_str 30 "123456789\")).
Proof. vm_compute. reflexivity. Qed.

Lemma lfnchdir_sets_cwd_only_if_exists_witness :
  lfnchdir sample_os ("C:\" ++ repeat_str 30 "123456789\") sample_state
    = (Raise (TypeError bytes_percent_str),
       logged (CallAbspath ("C:\" ++ repeat_str 30 "123456789\")) sample_state).
Proof.
  refine (proj1 (proj1 (proj2 (proj2 (lfnchdir_sets_cwd_only_if_exists sample_os
                   ("C:\" ++ repeat_str 30 "123456789\") sample_state))) _)
            (long_chdir_warning ++ "%s") _).
  - vm_compute. reflexivity.
  - reflexivity.
Defined.

(** ** wrapsplit *)

Section Wrapsplit.

Lemma endswith_last_char (s : string) (c : ascii) :
  endswith s (String c EmptyString) =
    match last_char s with
    | Some d => Ascii.eqb d c
    | None => false
    end.
Proof.
  unfold endswith. induction s as [| a s IH]; [reflexivity |].
  destruct s as [| b s'].
  - cbn. destruct (Ascii.eqb a c); reflexivity.
  - change (last_char (String a (String b s'))) with (last_char (String b s')).
    rewrite <- IH. cbn [String.length Nat.leb andb Nat.sub].
    rewrite Nat.sub_0_r. cbn [String.substring]. reflexivity.
Qed.

Lemma last_char_app (h : string) (c : ascii) :
  last_char (h ++ String c EmptyString) = Some c.
Proof.
  induction h as [| a h IH]; [reflexivity |].
  cbn [String.append]. destruct h; [reflexivity | exact IH].
Qed.

Lemma endswith_app_sep (h : string) : endswith (h ++ "\") "\" = true.
Proof. rewrite endswith_last_char, last_char_app. reflexivity. Qed.

Lemma endswith_colon_not_sep (h : string) :
  endswith h ":" = true -> endswith h "\" = false.
Proof.
  rewrite !endswith_last_char. destruct (last_char h) as [d |]; [| discriminate].
  intros H. apply Ascii.eqb_eq in H. subst d. reflexivity.
Qed.


Lemma append_assoc (a b c : string) : (a ++ b) ++ c = a ++ b ++ c.
Proof. induction a as [| x a IH]; cbn; [reflexivity | rewrite IH; reflexivity]. Qed.


Variable split : string -> string * string.
Variable join : string -> string -> string.

(** The wrapped split is the native one with [_addmissingbackslash] applied to
    the head. *)
Lemma wrapsplit_addmissingbackslash (P : string) :
  wrapsplit split P = (_addmissingbackslash (fst (split P)), snd (split P)).
Proof.
  unfold wrapsplit, _addmissingbackslash.
  destruct (split P) as [h t]. cbn [fst snd].
  destruct (endswith h ":"); reflexivity.
Qed.

(** The argument for the law, and for its failure without the wrapper. *)
Lemma wrapsplit_restores_separator (P : string) :
  recomposes P (fst (split P)) (snd (split P)) ->
  joins_with_one_separator join
    (fst (wrapsplit split P)) (snd (wrapsplit split P)) ->
  join (fst (wrapsplit split P)) (snd (wrapsplit split P)) = P.
Proof.
  unfold wrapsplit, joins_with_one_separator, recomposes.
  destruct (split P) as [h t]. cbn [fst snd].
  intros R J'.
  destruct (endswith h ":") eqn:C; cbn [fst snd] in *.
  - rewrite J', endswith_app_sep. cbn [orb].
    destruct R as [[S _] | [_ ->]].
    + rewrite (endswith_colon_not_sep h C) in S. discriminate.
    + rewrite append_assoc. reflexivity.
  - rewrite J', C. destruct R as [[-> ->] | [-> ->]]; reflexivity.
Qed.



End Wrapsplit.



(** The interpreter's pair meets the two assumptions of the law on the drive
    roots and on an ordinary path, and the law holds there. *)
Example ntpath_roundtrip :
  let join2 := fun h t => ntpath.join h [t] in
  Forall (fun P =>
            recomposes P (fst (ntpath.split P)) (snd (ntpath.split P)) /\
            joins_with_one_separator join2
              (fst (wrapsplit ntpath.split P)) (snd (wrapsplit ntpath.split P)) /\
            join2 (fst (wrapsplit ntpath.split P))
                  (snd (wrapsplit ntpath.split P)) = P)
         ["C:\"; "\\?\C:\"; "C:\work\a.txt"; "\\?\C:\work\a.txt"].
Proof.
  cbv zeta. repeat constructor; try reflexivity;
    solve [left; split; reflexivity | right; split; reflexivity].
Qed.

(** ** The sample native pair on every path [X\c]

    The two assumptions of the law are met by the sample pair on every path
    made of a part [X] that ends with a name or with a colon, a separator, and
    a last name [c] (empty at a root): drive roots, extended drive roots, and
    all that lies beneath them. *)

Section SamplePair.

Lemma last_char_append (a b : string) :
  b <> EmptyString -> last_char (a ++ b) = last_char b.
Proof.
  intros Hb. induction a as [| x a IH]; [reflexivity |].
  cbn [String.append]. rewrite <- IH.
  destruct (a ++ b) eqn:E; [| reflexivity].
  destruct a; cbn in E; [contradiction | discriminate].
Qed.

Lemma split_at_last_sep_name (c : string) :
  no_sep c = true -> split_at_last_sep c = (EmptyString, c).
Proof.
  induction c as [| x c IH]; [reflexivity |].
  cbn [no_sep split_at_last_sep]. intros H.
  apply andb_true_iff in H. destruct H as [Hx Hc].
  rewrite (IH Hc). apply negb_true_iff in Hx. rewrite Hx. reflexivity.
Qed.

Lemma split_at_last_sep_append (X c : string) :
  no_sep c = true ->
  split_at_last_sep (X ++ String "\" c) = (X ++ "\", c).
Proof.
  intros Hc. induction X as [| x X IH].
  - cbn [String.append split_at_last_sep].
    rewrite (split_at_last_sep_name c Hc). reflexivity.
  - cbn [String.append split_at_last_sep]. rewrite IH.
    destruct (X ++ "\") eqn:E; [| reflexivity].
    destruct X; discriminate E.
Qed.

Lemma rstrip_seps_append_sep (X : string) :
  rstrip_seps (X ++ "\") = rstrip_seps X.
Proof.
  induction X as [| x X IH]; [reflexivity |].
  cbn [String.append rstrip_seps]. rewrite IH. reflexivity.
Qed.

Lemma rstrip_seps_name_end (X : string) (ch : ascii) :
  last_char X = Some ch -> is_sep ch = false -> rstrip_seps X = X.
Proof.
  intros L N. induction X as [| x X IH]; [discriminate L |].
  destruct X as [| y X'].
  - cbn in L. injection L as ->. cbn [rstrip_seps]. rewrite N. reflexivity.
  - change (last_char (String x (String y X'))) with (last_char (String y X')) in L.
    cbn [rstrip_seps] in *. rewrite (IH L). reflexivity.
Qed.

Lemma endswith_sep_false (X : string) (ch : ascii) (sep : ascii) :
  last_char X = Some ch -> is_sep ch = false -> is_sep sep = true ->
  endswith X (String sep EmptyString) = false.
Proof.
  intros L N S. rewrite endswith_last_char, L.
  destruct (Ascii.eqb_spec ch sep) as [-> |]; [congruence | reflexivity].
Qed.

(** What the sample split returns for [X\c]. *)
Lemma sample_split_append (X c : string) (ch : ascii) :
  no_sep c = true -> last_char X = Some ch -> is_sep ch = false ->
  sample_split (X ++ "\" ++ c) = (X, c) \/
  (exists d, X = String d ":" /\ sample_split (X ++ "\" ++ c) = (X ++ "\", c)).
Proof.
  intros Hc L N. unfold sample_split.
  assert (Hno : sample_splitdrive (X ++ "\" ++ c) = (EmptyString, X ++ "\" ++ c) ->
                (let (d, p') := sample_splitdrive (X ++ "\" ++ c) in
                 let (head, tail) := split_at_last_sep p' in
                 (d ++ match rstrip_seps head with
                       | EmptyString => head
                       | _ => rstrip_seps head
                       end, tail)) = (X, c)).
  { intros ->. cbv beta iota. cbn [String.append].
    rewrite (split_at_last_sep_append X c Hc).
    rewrite rstrip_seps_append_sep, (rstrip_seps_name_end X ch L N).
    cbn [String.append].
    destruct X; [discriminate L | reflexivity]. }
  destruct X as [| d X]; [discriminate L |].
  destruct X as [| k Y]; [left; apply Hno; reflexivity |].
  destruct (Ascii.eqb_spec k ":") as [-> | Hk].
  - (* a drive letter and a colon *)
    cbn [String.append sample_splitdrive].
    rewrite (split_at_last_sep_append Y c Hc), rstrip_seps_append_sep.
    destruct Y as [| y Y'].
    + right. exists d. split; reflexivity.
    + left.
      change (last_char (String d (String ":" (String y Y'))))
        with (last_char (String y Y')) in L.
      rewrite (rstrip_seps_name_end _ ch L N). reflexivity.
  - left. apply Hno. cbn [String.append sample_splitdrive].
    destruct k as [[] [] [] [] [] [] [] []]; try reflexivity.
    contradiction Hk. reflexivity.
Qed.

Lemma sample_join_one_separator (h t : string) :
  h <> EmptyString -> endswith h "/" = false ->
  joins_with_one_separator sample_join h t.
Proof.
  intros Hh Hs. unfold joins_with_one_separator, sample_join.
  destruct h; [contradiction |].
  rewrite Hs, orb_false_r. reflexivity.
Qed.

(** The law under the wrapped split, for the sample pair, on every [X\c]. *)
Lemma sample_pair_roundtrip (X c : string) (ch : ascii) :
  no_sep c = true -> last_char X = Some ch -> is_sep ch = false ->
  sample_join (fst (wrapsplit sample_split (X ++ "\" ++ c)))
              (snd (wrapsplit sample_split (X ++ "\" ++ c)))
    = X ++ "\" ++ c.
Proof.
  intros Hc L N.
  assert (HX : X <> EmptyString) by (destruct X; [discriminate L | discriminate]).
  assert (Hb : endswith X "\" = false) by (apply (endswith_sep_false X ch); auto).
  assert (Hf : endswith X "/" = false) by (apply (endswith_sep_false X ch); auto).
  apply wrapsplit_restores_separator.
  - destruct (sample_split_append X c ch Hc L N) as [-> | [d [-> ->]]]; cbn [fst snd].
    + right. split; [exact Hb | reflexivity].
    + left. split; reflexivity.
  - unfold wrapsplit.
    destruct (sample_split_append X c ch Hc L N) as [-> | [d [-> ->]]]; cbn [fst snd].
    + destruct (endswith X ":"); cbn [fst snd];
        apply sample_join_one_separator; auto.
      * destruct X; discriminate.
      * rewrite endswith_last_char, last_char_app. reflexivity.
    + apply sample_join_one_separator; [discriminate |].
      rewrite endswith_last_char. reflexivity.
Qed.

End SamplePair.

Example sample_pair_drive_root :
  sample_join (fst (wrapsplit sample_split "C:\"))
              (snd (wrapsplit sample_split "C:\")) = "C:\".
Proof. exact (sample_pair_roundtrip "C:" "" ":" eq_refl eq_refl eq_refl). Qed.

Example sample_pair_extended_file :
  wrapsplit sample_split "\\?\C:\work\a.txt" = ("\\?\C:\work", "a.txt") /\
  wrapsplit sample_split "\\?\C:\work" = ("\\?\C:\", "work").
Proof. split; reflexivity. Qed.

(** * Further properties of the module *)

(** ** The wrappers on text arguments *)

Section WrapperForwarding.

Variable os : Native.

(** Whatever text [uncabspath] is given, what it returns is a path it leaves
    alone. *)
Lemma uncabspath_returns_encoded (v : value) (s : state) (q : string)
    (s1 : state) :
  uncabspath os v s = (Ret q, s1) -> already_encoded q = true.
Proof.
  assert (Hstr : forall p, uncabspath os (Str p) s = (Ret q, s1) ->
                           already_encoded q = true).
  { intros p. rewrite uncabspath_encoded. intros E.
    assert (Hq : q = encoded os (real_cwd s) p) by congruence.
    rewrite Hq. apply encoded_already_encoded. }
  destruct v; try discriminate.
  - apply Hstr.
  - rewrite uncabspath_bytes. destruct (os_decode os b); [apply Hstr | discriminate].
Qed.

Lemma stringtobytes_str (q : string) (s : state) :
  stringtobytes os (Str q) s =
    match os_encode os q with
    | Some b => (Ret (Bytes b), s)
    | None => (Raise UnicodeEncodeError, s)
    end.
Proof. unfold stringtobytes. destruct (os_encode os q); reflexivity. Qed.

(** X1.  [wrap2] encodes the first path and turns it into [bytes] before it
    reads the second argument.  When the first path encodes to [bytes], a
    call with the second path missing raises [IndexError], and a call with a
    second path that is not text raises the [TypeError] naming that value.
    When [str.encode] fails on the first path, [UnicodeEncodeError] is raised
    whatever follows it.  In each case the wrapped method has not run, and the
    state is the one the encoding of the first path left. *)
Theorem wrap2_second_path_rejected (method : method_t) (a0 : value)
    (kwargs : list (string * value)) (s : state) (q : string) (s1 : state) :
  uncabspath os a0 s = (Ret q, s1) ->
  (forall b,
      os_encode os q = Some b ->
      wrap2 os method [a0] kwargs s = (Raise IndexError, s1) /\
      (forall a1 rest,
          is_str a1 = false -> is_bytes a1 = false ->
          wrap2 os method (a0 :: a1 :: rest) kwargs s =
            (Raise (TypeError (str a1 ++ " is not a string ("
                               ++ str_of_type a1 ++ ")")), s1))) /\
  (os_encode os q = None ->
   forall rest,
     wrap2 os method (a0 :: rest) kwargs s = (Raise UnicodeEncodeError, s1)).
Proof.
  intros U. split.
  - intros b E. split.
    + unfold wrap2. unfold bind at 1. rewrite U.
      unfold bind at 1. rewrite stringtobytes_str, E. reflexivity.
    + intros a1 rest Hs Hb. unfold wrap2. unfold bind at 1. rewrite U.
      unfold bind at 1. rewrite stringtobytes_str, E.
      unfold bind at 1. rewrite (uncabspath_non_text os a1 s1 Hs Hb).
      reflexivity.
  - intros E rest. unfold wrap2. unfold bind at 1. rewrite U.
    unfold bind at 1. rewrite stringtobytes_str, E. reflexivity.
Qed.

(** X2.  Both paths of a two-path primitive are encoded, each from the same
    working directory.  When [str.encode] gives [bytes] for both, these are
    what the method receives; the other positional arguments and the keyword
    arguments go through unchanged; the method runs once, after the two
    encodings.  When [str.encode] fails on the first path, or on the second,
    [UnicodeEncodeError] is raised there and the method does not run. *)
Theorem wrap2_forwards (method : method_t) (p0 p1 : string)
    (rest : list value) (kwargs : list (string * value)) (s : state) :
  (forall b0 b1,
      os_encode os (encoded os (real_cwd s) p0) = Some b0 ->
      os_encode os (encoded os (real_cwd s) p1) = Some b1 ->
      wrap2 os method (Str p0 :: Str p1 :: rest) kwargs s =
        method (Bytes b0 :: Bytes b1 :: rest) kwargs
          (logged (CallMethod (Bytes b0 :: Bytes b1 :: rest) kwargs)
             (after_encoding p1 (after_encoding p0 s)))) /\
  (os_encode os (encoded os (real_cwd s) p0) = None ->
   wrap2 os method (Str p0 :: Str p1 :: rest) kwargs s =
     (Raise UnicodeEncodeError, after_encoding p0 s)) /\
  (forall b0,
      os_encode os (encoded os (real_cwd s) p0) = Some b0 ->
      os_encode os (encoded os (real_cwd s) p1) = None ->
      wrap2 os method (Str p0 :: Str p1 :: rest) kwargs s =
        (Raise UnicodeEncodeError, after_encoding p1 (after_encoding p0 s))).
Proof.
  split; [| split].
  - intros b0 b1 E0 E1. unfold wrap2. unfold bind at 1.
    rewrite uncabspath_encoded.
    unfold bind at 1. rewrite stringtobytes_str, E0.
    unfold bind at 1. rewrite uncabspath_encoded, real_cwd_after_encoding.
    unfold bind at 1. rewrite stringtobytes_str, E1. reflexivity.
  - intros E0. unfold wrap2. unfold bind at 1. rewrite uncabspath_encoded.
    unfold bind at 1. rewrite stringtobytes_str, E0. reflexivity.
  - intros b0 E0 E1. unfold wrap2. unfold bind at 1.
    rewrite uncabspath_encoded.
    unfold bind at 1. rewrite stringtobytes_str, E0.
    unfold bind at 1. rewrite uncabspath_encoded, real_cwd_after_encoding.
    unfold bind at 1. rewrite stringtobytes_str, E1. reflexivity.
Qed.

(** X3.  A primitive wrapped twice gets the path encoded once: when the
    encoded path encodes to the [bytes] [b] and the codec gives back the
    encoded path for it, the method under two wrappers receives the very
    arguments it receives under one.  When [str.encode] fails on the encoded
    path, one wrapper and two raise the same [UnicodeEncodeError] and the
    method does not run. *)
Theorem wrap1_twice_encodes_once (method : method_t) (p : string)
    (rest : list value) (kwargs : list (string * value)) (s : state) :
  (forall b,
      os_encode os (encoded os (real_cwd s) p) = Some b ->
      os_decode os b = Some (encoded os (real_cwd s) p) ->
      wrap1 os method (Str p :: rest) kwargs s =
        method (Bytes b :: rest) kwargs
          (logged (CallMethod (Bytes b :: rest) kwargs) (after_encoding p s)) /\
      wrap1 os (wrap1 os method) (Str p :: rest) kwargs s =
        method (Bytes b :: rest) kwargs
          (logged (CallMethod (Bytes b :: rest) kwargs)
             (logged (CallMethod (Bytes b :: rest) kwargs)
                     (after_encoding p s)))) /\
  (os_encode os (encoded os (real_cwd s) p) = None ->
   wrap1 os method (Str p :: rest) kwargs s =
     (Raise UnicodeEncodeError, after_encoding p s) /\
   wrap1 os (wrap1 os method) (Str p :: rest) kwargs s =
     (Raise UnicodeEncodeError, after_encoding p s)).
Proof.
  split.
  - intros b E D.
    assert (W : forall m,
               wrap1 os m (Str p :: rest) kwargs s =
               m (Bytes b :: rest) kwargs
                 (logged (CallMethod (Bytes b :: rest) kwargs)
                         (after_encoding p s))).
    { intros m. unfold wrap1. unfold bind at 1. rewrite uncabspath_encoded.
      unfold bind at 1. rewrite stringtobytes_str, E. reflexivity. }
    split; [apply W |].
    rewrite W. unfold wrap1 at 1. unfold bind at 1.
    rewrite uncabspath_bytes, D.
    rewrite uncabspath_guarded by apply encoded_already_encoded.
    unfold bind at 1. rewrite stringtobytes_str, E. reflexivity.
  - intros E.
    assert (W : forall m,
               wrap1 os m (Str p :: rest) kwargs s =
               (Raise UnicodeEncodeError, after_encoding p s)).
    { intros m. unfold wrap1. unfold bind at 1. rewrite uncabspath_encoded.
      unfold bind at 1. rewrite stringtobytes_str, E. reflexivity. }
    split; apply W.
Qed.

(** X4.  A path given as [bytes] is decoded first.  When it does not decode,
    the wrappers and the two replacements raise [UnicodeDecodeError] and no
    call leaves the module; when it decodes to [p], they behave as on the
    [str] [p]. *)
Theorem bytes_path_is_decoded (method : method_t) (b : string)
    (rest : list value) (kwargs : list (string * value))
    (mode : option value) (s : state) :
  (os_decode os b = None ->
     wrap1 os method (Bytes b :: rest) kwargs s = (Raise UnicodeDecodeError, s) /\
     wrap2 os method (Bytes b :: rest) kwargs s = (Raise UnicodeDecodeError, s) /\
     lfnlistdir os (Bytes b) s = (Raise UnicodeDecodeError, s) /\
     lfnmkdir os (Bytes b) mode s = (Raise UnicodeDecodeError, s)) /\
  (forall p,
     os_decode os b = Some p ->
     wrap1 os method (Bytes b :: rest) kwargs s
       = wrap1 os method (Str p :: rest) kwargs s /\
     wrap2 os method (Bytes b :: rest) kwargs s
       = wrap2 os method (Str p :: rest) kwargs s /\
     lfnlistdir os (Bytes b) s = lfnlistdir os (Str p) s /\
     lfnmkdir os (Bytes b) mode s = lfnmkdir os (Str p) mode s).
Proof.
  split.
  - intros D. unfold wrap1, wrap2, lfnlistdir, lfnmkdir, bind.
    rewrite uncabspath_bytes, D. repeat split; reflexivity.
  - intros p D. unfold wrap1, wrap2, lfnlistdir, lfnmkdir, bind.
    rewrite uncabspath_bytes, D. repeat split; reflexivity.
Qed.

End WrapperForwarding.

(** ** lfnmkdir: a failure code outside the table *)

Section LfnmkdirEdges.

Variable os : Native.

(** X5.  When the native create call fails with a code that [_errmap] does
    not list (the file-not-found code is one), [lfnmkdir] does not raise an
    [OSError]: the table lookup fails and the [KeyError] carrying the native
    code is what the caller gets. *)
Theorem lfnmkdir_unlisted_code_keyerror (p : value) (mode : option value)
    (s : state) (q : string) (s1 : state) (code : Z) :
  uncabspath os p s = (Ret q, s1) ->
  os_mkdir os q = Some code ->
  code <> _ERROR_PATH_NOT_FOUND -> code <> _ERROR_ALREADY_EXISTS ->
  lfnmkdir os p mode s =
    (Raise (KeyError code),
     logged CallGetLastError
       (with_last_error code (logged (CallCreateDirectory q None) s1))).
Proof.
  intros U C H3 H183. rewrite (lfnmkdir_run os p mode s q s1 U), C.
  unfold _errmap, dict_get.
  apply Z.eqb_neq in H3, H183.
  rewrite (Z.eqb_sym _ERROR_PATH_NOT_FOUND), H3.
  rewrite (Z.eqb_sym _ERROR_ALREADY_EXISTS), H183. reflexivity.
Qed.

End LfnmkdirEdges.

(** ** lfnlistdir: the calls it makes *)

Section LfnlistdirProtocol.

Variable os : Native.

Lemma lfnlistdir_loop_calls (h : Z) (rest : list string) :
  forall (out : string) (result : list value) (s : state),
    find_open s = Some (h, rest) ->
    exists s',
      lfnlistdir_loop (S (List.length rest)) h out result s =
        (Ret (result ++ map Bytes (out :: rest))%list, s') /\
      find_open s' = Some (h, []) /\
      trace s' = (trace s ++ repeat (CallFindNextFile h) (S (List.length rest)))%list /\
      _cwd s' = _cwd s /\ real_cwd s' = real_cwd s.
Proof.
  induction rest as [| n rest IH]; intros out result s H.
  - cbn [lfnlistdir_loop List.length eq negb andb]. unfold bind at 1.
    rewrite (FindNextFile_open h out s [] H). cbn [fst snd negb].
    eexists. split; [reflexivity |]. repeat split. exact H.
  - cbn [List.length].
    change (lfnlistdir_loop (S (S (List.length rest))) h out result s)
      with (bind (_FindNextFile h out)
              (fun r => if negb (fst r) then ret (result ++ [Bytes out])%list
                        else lfnlistdir_loop (S (List.length rest)) h (snd r)
                               (result ++ [Bytes out])%list) s).
    unfold bind at 1.
    rewrite (FindNextFile_open h out s (n :: rest) H). cbn [fst snd negb].
    destruct (IH n (result ++ [Bytes out])%list
                (with_find_open (Some (h, rest)) (logged (CallFindNextFile h) s))
                eq_refl) as [s' [E [F [Tr [C R]]]]].
    exists s'. split; [| split; [exact F | split; [| split; assumption]]].
    + rewrite E. cbn [map]. rewrite <- app_assoc. reflexivity.
    + rewrite Tr. cbn [trace with_find_open logged].
      rewrite <- app_assoc. reflexivity.
Qed.

(** X6.  On a directory the native open call opens, [lfnlistdir] makes one
    [FindFirstFile] call, one [FindNextFile] call for each further name and
    one more that ends the iteration, and one [FindClose] call on the same
    handle, in that order and nothing else; the handle is closed when it
    returns, and [_cwd] and the working directory are untouched. *)
Theorem lfnlistdir_call_protocol (p : value) (s : state) (q : string)
    (s1 : state) (h : Z) (first : string) (rest : list string) :
  uncabspath os p s = (Ret q, s1) ->
  os_find os (os_join os q "*") = Opened h first rest ->
  h <> _INVALID_HANDLE_VALUE ->
  exists s',
    snd (lfnlistdir os p s) = s' /\
    trace s' = (trace s1
                ++ CallFindFirstFile (os_join os q "*")
                   :: repeat (CallFindNextFile h) (S (List.length rest))
                ++ [CallFindClose h])%list /\
    find_open s' = None /\
    _cwd s' = _cwd s1 /\ real_cwd s' = real_cwd s1.
Proof.
  intros U F Hh. unfold lfnlistdir. unfold bind at 1. rewrite U.
  unfold _FindFirstFile. run_m. rewrite F. cbn [fst snd].
  apply Z.eqb_neq in Hh. rewrite Hh.
  unfold pending.
  change (find_open (with_find_open (Some (h, rest))
                       (logged (CallFindFirstFile (os_join os q "*")) s1)))
    with (Some (h, rest)).
  cbv iota beta. rewrite Z.eqb_refl.
  destruct (lfnlistdir_loop_calls h rest first []
              (with_find_open (Some (h, rest))
                 (logged (CallFindFirstFile (os_join os q "*")) s1))
              eq_refl) as [s' [E [C [Tr [Cw Rc]]]]].
  rewrite E. unfold _FindClose. run_m.
  change (find_open (logged (CallFindClose h) s')) with (find_open s').
  rewrite C, Z.eqb_refl. eexists. split; [reflexivity |].
  cbn [snd trace find_open _cwd real_cwd with_find_open logged].
  rewrite Tr, Cw, Rc. cbn [trace _cwd real_cwd with_find_open logged].
  repeat split. rewrite <- !app_assoc. reflexivity.
Qed.

(** X7.  On a failed open, [lfnlistdir] asks for the last error.  With the
    path-not-found or the file-not-found code it then calls [FindNextFile]
    and [FindClose] on the invalid handle; with any other code it raises
    without a [FindClose] call. *)
Theorem lfnlistdir_failed_open_calls (p : value) (s : state) (q : string)
    (s1 : state) (code : Z) :
  uncabspath os p s = (Ret q, s1) ->
  find_open s = None ->
  os_find os (os_join os q "*") = NotOpened code ->
  (code = _ERROR_PATH_NOT_FOUND \/ code = _ERROR_FILE_NOT_FOUND ->
     trace (snd (lfnlistdir os p s)) =
       (trace s1 ++ [CallFindFirstFile (os_join os q "*"); CallGetLastError;
                     CallFindNextFile _INVALID_HANDLE_VALUE;
                     CallFindClose _INVALID_HANDLE_VALUE])%list) /\
  (code <> _ERROR_PATH_NOT_FOUND -> code <> _ERROR_FILE_NOT_FOUND ->
     trace (snd (lfnlistdir os p s)) =
       (trace s1 ++ [CallFindFirstFile (os_join os q "*"); CallGetLastError])%list).
Proof.
  intros U N F.
  assert (N1 : find_open s1 = None).
  { rewrite <- N, <- (uncabspath_keeps_find_open os p s), U. reflexivity. }
  assert (R : lfnlistdir os p s =
    ((if negb (code =? _ERROR_PATH_NOT_FOUND) && negb (code =? _ERROR_FILE_NOT_FOUND)
      then raise (ValueError ("invalid handle (" ++ q ++ ", "
                              ++ str_of_int code ++ ")! "))
      else ret tt) ;;;
     n <- gets (pending _INVALID_HANDLE_VALUE) ;;
     try_finally (lfnlistdir_loop (S n) _INVALID_HANDLE_VALUE "" [])
       (_FindClose _INVALID_HANDLE_VALUE))
      (logged CallGetLastError
         (with_last_error code
            (logged (CallFindFirstFile (os_join os q "*")) s1)))).
  { unfold lfnlistdir. unfold bind at 1. rewrite U.
    unfold _FindFirstFile, _GetLastError. run_m. rewrite F. cbn [fst snd].
    rewrite Z.eqb_refl. reflexivity. }
  rewrite R. clear R. split.
  - intros [-> | ->]; cbn [Z.eqb _ERROR_PATH_NOT_FOUND _ERROR_FILE_NOT_FOUND
                            Pos.eqb negb andb];
      run_m; unfold pending; cbn [find_open logged with_last_error];
      rewrite N1; cbn [lfnlistdir_loop eq negb andb app]; unfold bind at 1;
      (rewrite FindNextFile_closed by exact N1); cbn [fst snd negb];
      unfold _FindClose; run_m; cbn [find_open logged with_last_error];
      rewrite N1; cbn [snd trace logged with_last_error];
      rewrite <- !app_assoc; reflexivity.
  - intros H3 H2. apply Z.eqb_neq in H3, H2. rewrite H3, H2. cbn [negb andb].
    run_m. cbn [snd trace logged with_last_error].
    rewrite <- !app_assoc. reflexivity.
Qed.

End LfnlistdirProtocol.

(** ** wrapsplit on any native split *)

Section WrapsplitShape.

Variable split : string -> string * string.

(** X8.  Whatever the native split returns, the head the wrapped split
    returns does not end with a colon and is the native head run through
    [_addmissingbackslash], the tail is the native tail, and wrapping the
    wrapped split again changes nothing. *)
Theorem wrapsplit_head_never_ends_with_colon (P : string) :
  endswith (fst (wrapsplit split P)) ":" = false /\
  fst (wrapsplit split P) = _addmissingbackslash (fst (split P)) /\
  snd (wrapsplit split P) = snd (split P) /\
  wrapsplit (wrapsplit split) P = wrapsplit split P.
Proof.
  assert (H : endswith (fst (wrapsplit split P)) ":" = false).
  { unfold wrapsplit. destruct (split P) as [h t]. cbn [fst snd].
    destruct (endswith h ":") eqn:C; cbn [fst]; [| exact C].
    rewrite endswith_last_char, last_char_app. reflexivity. }
  split; [exact H |]. split; [| split].
  - rewrite wrapsplit_addmissingbackslash. reflexivity.
  - rewrite wrapsplit_addmissingbackslash. reflexivity.
  - unfold wrapsplit at 1. rewrite H. reflexivity.
Qed.

End WrapsplitShape.

(** ** lfnchdir, lfngetcwd and lfnabspath together *)

Section VirtualCwd.

Variable os : Native.

Lemma already_encoded_nonempty (t : string) :
  already_encoded t = true -> t <> EmptyString.
Proof. intros H E. subst t. discriminate H. Qed.


(** X10.  [lfnchdir] keeps [_cwd] encoded: if [_cwd] is unset or holds a path
    that [uncabspath] leaves alone, so it is afterwards, however [lfnchdir]
    ends; such a path is not empty and [uncabspath] returns it unchanged. *)
Theorem lfnchdir_keeps_cwd_encoded (path : string) (s : state) :
  cwd_encoded s ->
  cwd_encoded (snd (lfnchdir os path s)) /\
  (forall t s0,
      _cwd (snd (lfnchdir os path s)) = Some t ->
      t <> EmptyString /\ uncabspath os (Str t) s0 = (Ret t, s0)).
Proof.
  intros I.
  assert (C : cwd_encoded (snd (lfnchdir os path s))).
  { destruct (lfnchdir_outcome os path s) as [s0 [C [[X E] | [e E]]]];
      rewrite E; cbn [snd].
    - unfold cwd_encoded. cbn [_cwd with__cwd]. apply chdir_target_encoded.
    - unfold cwd_encoded in *. rewrite C. exact I. }
  split; [exact C |].
  intros t s0 Ht. unfold cwd_encoded in C. rewrite Ht in C.
  split; [apply already_encoded_nonempty; exact C |].
  apply uncabspath_guarded. exact C.
Qed.

(** X11.  After a successful [lfnchdir], [lfngetcwd] returns the encoded
    target without running the native [getcwd], and [lfnabspath] resolves a
    relative path against it: [.] is the target, [..] is the head of its
    split, anything else is joined onto it. *)
Theorem lfnchdir_then_getcwd_and_abspath (path : string) (s s' : state) :
  lfnchdir os path s = (Ret tt, s') ->
  (forall getcwd,
      wrapgetcwd getcwd s' = (Ret (chdir_target os s path), s')) /\
  (forall abspath normpath isabs split join getcwd rel,
      isabs (normpath rel) = false ->
      wrapabspath abspath normpath isabs split join (wrapgetcwd getcwd) rel s' =
        (Ret (if String.eqb (normpath rel) "." then chdir_target os s path
              else if String.eqb (normpath rel) ".."
                   then fst (split (chdir_target os s path))
                   else join (chdir_target os s path) (normpath rel)),
         s')).
Proof.
  intros E.
  assert (Hc : _cwd s' = Some (chdir_target os s path)).
  { destruct (lfnchdir_outcome os path s) as [s0 [_ [[_ R] | [e R]]]];
      rewrite R in E; try discriminate E.
    injection E as <-. reflexivity. }
  assert (G : forall getcwd,
             wrapgetcwd getcwd s' = (Ret (chdir_target os s path), s')).
  { intros getcwd. unfold wrapgetcwd, gets, bind. rewrite Hc.
    pose proof (already_encoded_nonempty _ (chdir_target_encoded os s path)) as N.
    destruct (chdir_target os s path); [contradiction | reflexivity]. }
  split; [exact G |].
  intros abspath normpath isabs split join getcwd rel A.
  unfold wrapabspath. rewrite A. cbn [negb].
  destruct (String.eqb (normpath rel) "."); [apply G |].
  destruct (String.eqb (normpath rel) ".."); unfold bind; rewrite G; reflexivity.
Qed.

End VirtualCwd.

(** ** The commands *)

Section Commands.

Variable host : Host.

Lemma list_dirs_run (root : string) (dirs : list string) :
  forall log,
    list_dirs host root dirs log =
      (Done tt,
       (log ++ map (fun p => Written (p ++ newline)) (long_dirs host root dirs))%list).
Proof.
  unfold long_dirs.
  induction dirs as [| dir dirs IH]; intros log.
  - cbn. rewrite app_nil_r. reflexivity.
  - cbn [list_dirs map filter]. unfold tbind at 1.
    destruct (len (host_join host root dir) >? _maxpath).
    + unfold ui_write. rewrite IH. cbn [map]. rewrite <- app_assoc. reflexivity.
    + unfold tret at 1. apply IH.
Qed.

Lemma list_files_run (root : string) (files : list string) :
  forall log,
    list_files host root files log =
      (Done tt,
       (log ++ map (fun p => Written (p ++ newline)) (long_files host root files))%list).
Proof.
  unfold long_files.
  induction files as [| file files IH]; intros log.
  - cbn. rewrite app_nil_r. reflexivity.
  - cbn [list_files map filter]. unfold tbind at 1.
    destruct (len (host_join host root file) >=? _maxpath).
    + unfold ui_write. rewrite IH. cbn [map]. rewrite <- app_assoc. reflexivity.
    + unfold tret at 1. apply IH.
Qed.

Lemma list_walk_run (triples : list (string * (list string * list string))) :
  forall log,
    list_walk host triples log =
      (Done tt,
       (log ++ map (fun p => Written (p ++ newline))
                 (flat_map (fun t => long_dirs host (fst t) (fst (snd t))
                                     ++ long_files host (fst t) (snd (snd t)))
                           triples))%list).
Proof.
  induction triples as [| [root [dirs files]] rest IH]; intros log.
  - cbn. rewrite app_nil_r. reflexivity.
  - cbn [list_walk flat_map fst snd]. unfold tbind at 1. rewrite list_dirs_run.
    unfold tbind at 1. rewrite list_files_run. rewrite IH.
    rewrite !map_app, <- !app_assoc. reflexivity.
Qed.

(** X12.  [list], and [lfn] without [--clean] whatever [force] is, only
    write: one line for each sub-directory whose joined path is longer than
    260 characters and each file whose joined path is at least 260 characters
    long, in the order of the walk, directories of a walked directory before
    its files; nothing is asked and nothing removed. *)
Theorem lfn_reports_long_paths (root : string) (force : bool)
    (log : list tool_event) :
  lfn_list host root log =
    (Done tt, (log ++ map (fun p => Written (p ++ newline)) (reported host root))%list) /\
  lfn host root false force log = lfn_list host root log.
Proof.
  split; [| reflexivity].
  unfold lfn_list, reported. apply list_walk_run.
Qed.

Lemma cleanDir_dirs_forced (root : string) (dirs : list string) (f : option string) :
  (forall log p, host_rmdir host log p = None) ->
  forall log,
    cleanDir_dirs host true root dirs f log =
      (Done tt, (log ++ map Rmdir (long_dirs host root dirs))%list).
Proof.
  intros NoFail. unfold long_dirs.
  induction dirs as [| dir dirs IH]; intros log.
  - cbn. rewrite app_nil_r. reflexivity.
  - cbn [cleanDir_dirs map filter negb orb]. unfold tbind at 1.
    destruct (len (host_join host root dir) >? _maxpath).
    + unfold tbind at 1, tret at 1, os_rmdir. rewrite NoFail.
      rewrite IH. cbn [map]. rewrite <- app_assoc. reflexivity.
    + unfold tret at 1. apply IH.
Qed.

Lemma cleanDir_files_forced (root : string) (files : list string) :
  (forall log p, host_unlink host log p = None) ->
  forall f log,
    exists f',
      cleanDir_files host true root files f log =
        (Done f',
         (log ++ map (if host_has_unlink host then Unlink else Unlinkpath)
                   (long_files host root files))%list).
Proof.
  intros NoFail. unfold long_files.
  induction files as [| file files IH]; intros f log.
  - exists f. cbn. rewrite app_nil_r. reflexivity.
  - cbn [cleanDir_files map filter negb orb]. unfold tbind at 1.
    destruct (len (host_join host root file) >=? _maxpath).
    + unfold tbind at 1, tret at 1.
      destruct (IH (Some (host_join host root file))
                  (log ++ [(if host_has_unlink host then Unlink else Unlinkpath)
                             (host_join host root file)])%list) as [f' E].
      exists f'.
      destruct (host_has_unlink host); unfold util_unlink, util_unlinkpath;
        rewrite NoFail, E; cbn [map]; rewrite <- app_assoc; reflexivity.
    + unfold tret at 1. apply IH.
Qed.

Lemma cleanDir_walk_forced
    (triples : list (string * (list string * list string))) :
  (forall log p, host_rmdir host log p = None) ->
  (forall log p, host_unlink host log p = None) ->
  forall f log,
    cleanDir_walk host true triples f log =
      (Done tt,
       (log ++ flat_map (fun t =>
                  map Rmdir (long_dirs host (fst t) (fst (snd t)))
                  ++ map (if host_has_unlink host then Unlink else Unlinkpath)
                         (long_files host (fst t) (snd (snd t))))
                triples)%list).
Proof.
  intros NoRm NoUn.
  induction triples as [| [root [dirs files]] rest IH]; intros f log.
  - cbn. rewrite app_nil_r. reflexivity.
  - cbn [cleanDir_walk flat_map fst snd]. unfold tbind at 1.
    rewrite (cleanDir_dirs_forced root dirs f NoRm).
    unfold tbind at 1.
    destruct (cleanDir_files_forced root files NoUn f
                (log ++ map Rmdir (long_dirs host root dirs))%list) as [f' E].
    rewrite E, IH, <- !app_assoc. reflexivity.
Qed.

Lemma removed_removals (root : string) :
  map removed (removals host root) = map Some (reported host root).
Proof.
  unfold removals, reported.
  induction (host_walk host root) as [| t rest IH]; [reflexivity |].
  cbn [flat_map]. rewrite !map_app, IH, !map_map. f_equal. f_equal.
  apply map_ext. intros p. destruct (host_has_unlink host); reflexivity.
Qed.

(** X13.  A forced clean-up whose removals all succeed asks nothing and
    removes exactly the paths [list] reports, in the same order: the long
    sub-directories by [os.rmdir], the long files by [util.unlink], or by
    [util.unlinkpath] where [util] has no [unlink]. *)
Theorem cleanDir_forced_removes_reported (root : string) (log : list tool_event) :
  (forall log p, host_rmdir host log p = None) ->
  (forall log p, host_unlink host log p = None) ->
  cleanDir host root true log = (Done tt, (log ++ removals host root)%list) /\
  lfn host root true true log = (Done tt, (log ++ removals host root)%list) /\
  map removed (removals host root) = map Some (reported host root).
Proof.
  intros NoRm NoUn.
  assert (C : cleanDir host root true log
              = (Done tt, (log ++ removals host root)%list)).
  { unfold cleanDir, removals. apply cleanDir_walk_forced; assumption. }
  split; [exact C |]. split; [exact C |]. apply removed_removals.
Qed.

Lemma cleanDir_dirs_unbound (root : string) (dirs : list string) :
  forall log,
    cleanDir_dirs host false root dirs None log =
      match long_dirs host root dirs with
      | [] => (Done tt, log)
      | _ :: _ => (Failed (UnboundLocalError "f"), log)
      end.
Proof.
  unfold long_dirs.
  induction dirs as [| dir dirs IH]; intros log; [reflexivity |].
  cbn [cleanDir_dirs map filter negb]. unfold tbind at 1.
  destruct (len (host_join host root dir) >? _maxpath).
  - reflexivity.
  - unfold tret at 1. apply IH.
Qed.

Lemma cleanDir_walk_unbound
    (pre : list (string * (list string * list string))) :
  Forall (fun t => snd (snd t) = [] /\ long_dirs host (fst t) (fst (snd t)) = [])
         pre ->
  forall r dirs files rest log,
    long_dirs host r dirs <> [] ->
    cleanDir_walk host false (pre ++ (r, (dirs, files)) :: rest) None log =
      (Failed (UnboundLocalError "f"), log).
Proof.
  induction 1 as [| [r0 [dirs0 files0]] pre [Hf Hd] _ IH];
    intros r dirs files rest log L.
  - cbn [app cleanDir_walk]. unfold tbind at 1. rewrite cleanDir_dirs_unbound.
    destruct (long_dirs host r dirs); [contradiction | reflexivity].
  - cbn [fst snd] in Hf, Hd. subst files0.
    cbn [app cleanDir_walk]. unfold tbind at 1.
    rewrite cleanDir_dirs_unbound, Hd.
    cbn [cleanDir_files]. unfold tbind at 1, tret at 1.
    apply IH. exact L.
Qed.

(** X14.  A clean-up that is not forced fails with [UnboundLocalError] on the
    first long sub-directory it meets when no file has been met before it:
    the prompt for a directory reads the local [f], which only the loop over
    files assigns.  Nothing has been asked or removed by then. *)
Theorem cleanDir_directory_before_any_file (root : string)
    (pre : list (string * (list string * list string)))
    (r : string) (dirs files : list string)
    (rest : list (string * (list string * list string)))
    (log : list tool_event) :
  host_walk host root = (pre ++ (r, (dirs, files)) :: rest)%list ->
  Forall (fun t => snd (snd t) = [] /\ long_dirs host (fst t) (fst (snd t)) = [])
         pre ->
  long_dirs host r dirs <> [] ->
  cleanDir host root false log = (Failed (UnboundLocalError "f"), log).
Proof.
  intros W P L. unfold cleanDir. rewrite W.
  apply cleanDir_walk_unbound; assumption.
Qed.

(** The prompt of a clean-up that is not forced: the message is built first. *)
Lemma delete_prompt_run (f0 : string) (log : list tool_event) :
  (msg <~ delete_prompt host f0 ;; ui_promptchoice host msg) log =
    match host_gettext host "Delete %s (yn)?" with
    | None =>
        (Done (host_promptchoice host log ("Delete " ++ f0 ++ " (yn)?")),
         (log ++ [Prompted ("Delete " ++ f0 ++ " (yn)?")])%list)
    | Some _ => (Failed (Propagated (TypeError bytes_percent_str)), log)
    end.
Proof.
  unfold tbind, delete_prompt.
  destruct (host_gettext host "Delete %s (yn)?"); reflexivity.
Qed.

Lemma cleanDir_dirs_declined (root : string) (dirs : list string)
    (f : option string) :
  (forall log msg, host_promptchoice host log msg = 0) ->
  forall log,
    exists r evs,
      cleanDir_dirs host false root dirs f log = (r, (log ++ evs)%list) /\
      Forall (fun e => removed e = None) evs.
Proof.
  intros No. induction dirs as [| dir dirs IH]; intros log.
  - exists (Done tt), []. rewrite app_nil_r. split; [reflexivity | constructor].
  - cbn [cleanDir_dirs negb orb]. unfold tbind at 1.
    destruct (len (host_join host root dir) >? _maxpath).
    + unfold tbind at 1. destruct f as [f0 |].
      * rewrite delete_prompt_run.
        destruct (host_gettext host "Delete %s (yn)?").
        { exists (Failed (Propagated (TypeError bytes_percent_str))), [].
          rewrite app_nil_r. split; [reflexivity | constructor]. }
        rewrite No. cbn [Z.eqb negb]. unfold tret at 1.
        destruct (IH (log ++ [Prompted ("Delete " ++ f0 ++ " (yn)?")])%list)
          as [r [evs [E F]]].
        exists r, (Prompted ("Delete " ++ f0 ++ " (yn)?") :: evs).
        rewrite E, <- app_assoc.
        split; [reflexivity | constructor; [reflexivity | exact F]].
      * exists (Failed (UnboundLocalError "f")), []. rewrite app_nil_r.
        split; [reflexivity | constructor].
    + unfold tret at 1. apply IH.
Qed.

Lemma cleanDir_files_declined (root : string) (files : list string) :
  (forall log msg, host_promptchoice host log msg = 0) ->
  forall f log,
    exists r evs,
      cleanDir_files host false root files f log = (r, (log ++ evs)%list) /\
      Forall (fun e => removed e = None) evs.
Proof.
  intros No. induction files as [| file files IH]; intros f log.
  - exists (Done f), []. rewrite app_nil_r. split; [reflexivity | constructor].
  - cbn [cleanDir_files negb orb]. unfold tbind at 1.
    destruct (len (host_join host root file) >=? _maxpath).
    + unfold tbind at 1. rewrite delete_prompt_run.
      destruct (host_gettext host "Delete %s (yn)?").
      { exists (Failed (Propagated (TypeError bytes_percent_str))), [].
        rewrite app_nil_r. split; [reflexivity | constructor]. }
      rewrite No. cbn [Z.eqb negb]. unfold tret at 1.
      destruct (IH (Some (host_join host root file))
                  (log ++ [Prompted ("Delete " ++ host_join host root file
                                      ++ " (yn)?")])%list)
        as [r [evs [E F]]].
      exists r, (Prompted ("Delete " ++ host_join host root file ++ " (yn)?") :: evs).
      rewrite E, <- app_assoc.
      split; [reflexivity | constructor; [reflexivity | exact F]].
    + unfold tret at 1. apply IH.
Qed.

Lemma cleanDir_walk_declined
    (triples : list (string * (list string * list string))) :
  (forall log msg, host_promptchoice host log msg = 0) ->
  forall f log,
    exists r evs,
      cleanDir_walk host false triples f log = (r, (log ++ evs)%list) /\
      Forall (fun e => removed e = None) evs.
Proof.
  intros No. induction triples as [| [root [dirs files]] rest IH]; intros f log.
  - exists (Done tt), []. rewrite app_nil_r. split; [reflexivity | constructor].
  - cbn [cleanDir_walk]. unfold tbind at 1.
    destruct (cleanDir_dirs_declined root dirs f No log) as [r1 [e1 [E1 F1]]].
    rewrite E1. destruct r1 as [[] | x].
    2:{ exists (Failed x), e1. split; [reflexivity | exact F1]. }
    unfold tbind at 1.
    destruct (cleanDir_files_declined root files No f (log ++ e1)%list)
      as [r2 [e2 [E2 F2]]].
    rewrite E2. destruct r2 as [f' | x].
    2:{ exists (Failed x), (e1 ++ e2)%list. rewrite app_assoc.
        split; [reflexivity | apply Forall_app; split; assumption]. }
    destruct (IH f' ((log ++ e1) ++ e2)%list) as [r3 [e3 [E3 F3]]].
    exists r3, (e1 ++ e2 ++ e3)%list. rewrite E3, <- !app_assoc.
    split; [reflexivity |].
    apply Forall_app; split; [exact F1 | apply Forall_app; split; assumption].
Qed.

(** X15.  A clean-up that is not forced, in which every prompt is answered
    with the first choice (No), removes nothing, however it ends. *)
Theorem cleanDir_declined_removes_nothing (root : string) (log : list tool_event) :
  (forall log msg, host_promptchoice host log msg = 0) ->
  exists r evs,
    cleanDir host root false log = (r, (log ++ evs)%list) /\
    Forall (fun e => removed e = None) evs.
Proof.
  intros No. unfold cleanDir. apply cleanDir_walk_declined. exact No.
Qed.

Section PromptsNameFiles.

Variable all : list (string * (list string * list string)).
Variable force : bool.

(** A prompt among the events names a file entry of the walk. *)
Let prompt_names_file (e : tool_event) : Prop :=
  forall msg, e = Prompted msg ->
    exists f0, names_file host all f0 /\ msg = "Delete " ++ f0 ++ " (yn)?".

(** [f], when bound, is the joined path of a file entry of the walk. *)
Let bound_to_file (f : option string) : Prop :=
  forall f0, f = Some f0 -> names_file host all f0.

Lemma prompt_names_file_removal (e : tool_event) :
  (forall msg, e <> Prompted msg) -> prompt_names_file e.
Proof. intros N msg E. contradiction (N msg). Qed.

Lemma cleanDir_dirs_prompts (root : string) (dirs : list string)
    (f : option string) :
  bound_to_file f ->
  forall log,
    exists r evs,
      cleanDir_dirs host force root dirs f log = (r, (log ++ evs)%list) /\
      Forall prompt_names_file evs.
Proof.
  intros B. induction dirs as [| dir dirs IH]; intros log.
  - exists (Done tt), []. rewrite app_nil_r. split; [reflexivity | constructor].
  - cbn [cleanDir_dirs]. unfold tbind at 1.
    destruct (len (host_join host root dir) >? _maxpath);
      [| unfold tret at 1; apply IH].
    unfold tbind at 1.
    assert (R : forall log0,
               exists r evs,
                 (os_rmdir host (host_join host root dir) ;;~
                  cleanDir_dirs host force root dirs f) log0
                   = (r, (log0 ++ evs)%list) /\
                 Forall prompt_names_file evs).
    { intros log0. unfold tbind, os_rmdir.
      destruct (host_rmdir host log0 (host_join host root dir)) as [x |].
      - exists (Failed (Propagated x)), [Rmdir (host_join host root dir)].
        split; [reflexivity |]. constructor; [| constructor].
        apply prompt_names_file_removal. discriminate.
      - destruct (IH (log0 ++ [Rmdir (host_join host root dir)])%list)
          as [r [evs [E F]]].
        exists r, (Rmdir (host_join host root dir) :: evs).
        rewrite E, <- app_assoc. split; [reflexivity |].
        constructor; [apply prompt_names_file_removal; discriminate | exact F]. }
    destruct force; cbn [negb orb].
    + unfold tret at 1. apply R.
    + destruct f as [f0 |].
      * rewrite delete_prompt_run.
        destruct (host_gettext host "Delete %s (yn)?").
        { exists (Failed (Propagated (TypeError bytes_percent_str))), [].
          rewrite app_nil_r. split; [reflexivity | constructor]. }
        set (m := "Delete " ++ f0 ++ " (yn)?").
        assert (Pm : prompt_names_file (Prompted m)).
        { intros msg E. injection E as <-. exists f0.
          split; [apply B; reflexivity | reflexivity]. }
        destruct (negb (host_promptchoice host log m =? 0)).
        -- destruct (R (log ++ [Prompted m])%list) as [r [evs [E F]]].
           exists r, (Prompted m :: evs).
           unfold tbind in E. unfold tbind. rewrite E, <- app_assoc.
           split; [reflexivity | constructor; assumption].
        -- unfold tret at 1.
           destruct (IH (log ++ [Prompted m])%list) as [r [evs [E F]]].
           exists r, (Prompted m :: evs). rewrite E, <- app_assoc.
           split; [reflexivity | constructor; assumption].
      * exists (Failed (UnboundLocalError "f")), []. rewrite app_nil_r.
        split; [reflexivity | constructor].
Qed.

Lemma cleanDir_files_prompts (root : string) (files : list string) :
  (forall file, In file files -> names_file host all (host_join host root file)) ->
  forall f log,
    bound_to_file f ->
    exists r evs,
      cleanDir_files host force root files f log = (r, (log ++ evs)%list) /\
      Forall prompt_names_file evs /\
      (forall f', r = Done f' -> bound_to_file f').
Proof.
  induction files as [| file files IH]; intros Hin f log B.
  - exists (Done f), []. rewrite app_nil_r.
    split; [reflexivity |]. split; [constructor |].
    intros f' E. injection E as <-. exact B.
  - assert (Bf : bound_to_file (Some (host_join host root file))).
    { intros f0 E. injection E as <-. apply Hin. left. reflexivity. }
    assert (Hin' : forall file0, In file0 files ->
                     names_file host all (host_join host root file0)).
    { intros file0 H. apply Hin. right. exact H. }
    cbn [cleanDir_files]. unfold tbind at 1.
    destruct (len (host_join host root file) >=? _maxpath);
      [| unfold tret at 1; apply (IH Hin' _ _ Bf)].
    unfold tbind at 1.
    set (p := host_join host root file) in *.
    assert (R : forall log0,
               exists r evs,
                 ((if host_has_unlink host then util_unlink host p
                   else util_unlinkpath host p) ;;~
                  cleanDir_files host force root files (Some p)) log0
                   = (r, (log0 ++ evs)%list) /\
                 Forall prompt_names_file evs /\
                 (forall f', r = Done f' -> bound_to_file f')).
    { intros log0. unfold tbind.
      assert (U : exists ev,
                 (forall msg, ev <> Prompted msg) /\
                 (if host_has_unlink host then util_unlink host p
                  else util_unlinkpath host p) log0 =
                 (match host_unlink host log0 p with
                  | None => Done tt
                  | Some x => Failed (Propagated x)
                  end, (log0 ++ [ev])%list)).
      { destruct (host_has_unlink host);
          [exists (Unlink p) | exists (Unlinkpath p)];
          (split; [discriminate |]);
          unfold util_unlink, util_unlinkpath;
          destruct (host_unlink host log0 p); reflexivity. }
      destruct U as [ev [Nev ->]].
      destruct (host_unlink host log0 p) as [x |].
      - exists (Failed (Propagated x)), [ev]. split; [reflexivity |].
        split; [constructor; [apply prompt_names_file_removal; exact Nev
                             | constructor] |].
        discriminate.
      - destruct (IH Hin' (Some p) (log0 ++ [ev])%list Bf) as [r [evs [E [F G]]]].
        exists r, (ev :: evs). rewrite E, <- app_assoc.
        split; [reflexivity |].
        split; [constructor; [apply prompt_names_file_removal; exact Nev | exact F]
               | exact G]. }
    destruct force; cbn [negb orb].
    + unfold tret at 1. apply R.
    + rewrite delete_prompt_run.
      destruct (host_gettext host "Delete %s (yn)?").
      { exists (Failed (Propagated (TypeError bytes_percent_str))), [].
        rewrite app_nil_r. split; [reflexivity |]. split; [constructor |].
        discriminate. }
      set (m := "Delete " ++ p ++ " (yn)?").
      assert (Pm : prompt_names_file (Prompted m)).
      { intros msg E. injection E as <-. exists p.
        split; [apply Bf; reflexivity | reflexivity]. }
      destruct (negb (host_promptchoice host log m =? 0)).
      * destruct (R (log ++ [Prompted m])%list) as [r [evs [E [F G]]]].
        exists r, (Prompted m :: evs).
        unfold tbind in E. unfold tbind. rewrite E, <- app_assoc.
        split; [reflexivity |]. split; [constructor; assumption | exact G].
      * unfold tret at 1.
        destruct (IH Hin' (Some p) (log ++ [Prompted m])%list Bf)
          as [r [evs [E [F G]]]].
        exists r, (Prompted m :: evs). rewrite E, <- app_assoc.
        split; [reflexivity |]. split; [constructor; assumption | exact G].
Qed.

Lemma cleanDir_walk_prompts
    (triples : list (string * (list string * list string))) :
  (forall t, In t triples -> In t all) ->
  forall f log,
    bound_to_file f ->
    exists r evs,
      cleanDir_walk host force triples f log = (r, (log ++ evs)%list) /\
      Forall prompt_names_file evs.
Proof.
  induction triples as [| [root [dirs files]] rest IH]; intros Hall f log B.
  - exists (Done tt), []. rewrite app_nil_r. split; [reflexivity | constructor].
  - cbn [cleanDir_walk]. unfold tbind at 1.
    destruct (cleanDir_dirs_prompts root dirs f B log) as [r1 [e1 [E1 F1]]].
    rewrite E1. destruct r1 as [[] | x].
    2:{ exists (Failed x), e1. split; [reflexivity | exact F1]. }
    unfold tbind at 1.
    assert (Hin : forall file, In file files ->
                    names_file host all (host_join host root file)).
    { intros file H. exists root, dirs, files, file.
      split; [apply Hall; left; reflexivity | split; [exact H | reflexivity]]. }
    destruct (cleanDir_files_prompts root files Hin f (log ++ e1)%list B)
      as [r2 [e2 [E2 [F2 G2]]]].
    rewrite E2. destruct r2 as [f' | x].
    2:{ exists (Failed x), (e1 ++ e2)%list. rewrite app_assoc.
        split; [reflexivity | apply Forall_app; split; assumption]. }
    destruct (IH (fun t H => Hall t (or_intror H)) f' ((log ++ e1) ++ e2)%list
                (G2 f' eq_refl)) as [r3 [e3 [E3 F3]]].
    exists r3, (e1 ++ e2 ++ e3)%list. rewrite E3, <- !app_assoc.
    split; [reflexivity |].
    apply Forall_app; split; [exact F1 | apply Forall_app; split; assumption].
Qed.

End PromptsNameFiles.

(** X16.  Every prompt of a clean-up names the joined path of a file entry of
    the walk: the prompt asked before a directory is removed shows the file
    that was handled last, not the directory. *)
Theorem cleanDir_prompts_name_files (root : string) (force : bool)
    (log : list tool_event) :
  exists r evs,
    cleanDir host root force log = (r, (log ++ evs)%list) /\
    forall msg,
      In (Prompted msg) evs ->
      exists f0,
        names_file host (host_walk host root) f0 /\
        msg = "Delete " ++ f0 ++ " (yn)?".
Proof.
  unfold cleanDir.
  destruct (cleanDir_walk_prompts (host_walk host root) force
              (host_walk host root) (fun t H => H) None log)
    as [r [evs [E F]]]; [discriminate |].
  exists r, evs. split; [exact E |].
  intros msg H. rewrite Forall_forall in F. exact (F _ H msg eq_refl).
Qed.

End Commands.

(** ** The further properties on the sample world *)

Lemma wrap2_second_path_rejected_witness :
  wrap2 sample_os sample_method [Str "C:\a"] [] sample_state =
    (Raise IndexError, logged (CallAbspath "C:\a") sample_state) /\
  wrap2 sample_os sample_method [Str "C:\a"; Int 5] [] sample_state =
    (Raise (TypeError "5 is not a string (<class 'int'>)"),
     logged (CallAbspath "C:\a") sample_state).
Proof.
  destruct (proj1 (wrap2_second_path_rejected sample_os sample_method
                     (Str "C:\a") [] sample_state "\\?\C:\a"
                     (logged (CallAbspath "C:\a") sample_state) eq_refl)
              "\\?\C:\a" eq_refl) as [H1 H2].
  split; [exact H1 | exact (H2 (Int 5) [] eq_refl eq_refl)].
Defined.

Lemma wrap2_forwards_witness :
  wrap2 sample_os sample_method [Str "C:\a"; Str "b"; Int 0] [] sample_state =
    (Ret NoneV,
     logged (CallMethod [Bytes "\\?\C:\a"; Bytes "\\?\C:\work\b"; Int 0] [])
       (logged (CallAbspath "b") (logged (CallAbspath "C:\a") sample_state))) /\
  wrap2 sample_os_strict sample_method [Str lone_surrogate; Str "b"] []
    sample_state =
    (Raise UnicodeEncodeError, logged (CallAbspath lone_surrogate) sample_state).
Proof.
  split.
  - exact (proj1 (wrap2_forwards sample_os sample_method "C:\a" "b" [Int 0] []
                    sample_state)
             "\\?\C:\a" "\\?\C:\work\b" eq_refl eq_refl).
  - exact (proj1 (proj2 (wrap2_forwards sample_os_strict sample_method
                           lone_surrogate "b" [] [] sample_state)) eq_refl).
Defined.

Lemma wrap1_twice_encodes_once_witness :
  wrap1 sample_os (wrap1 sample_os sample_method) [Str "a.txt"; Int 0] []
    sample_state =
    (Ret NoneV,
     logged (CallMethod [Bytes "\\?\C:\work\a.txt"; Int 0] [])
       (logged (CallMethod [Bytes "\\?\C:\work\a.txt"; Int 0] [])
          (logged (CallAbspath "a.txt") sample_state))).
Proof.
  exact (proj2 (proj1 (wrap1_twice_encodes_once sample_os sample_method "a.txt"
                         [Int 0] [] sample_state)
                  "\\?\C:\work\a.txt" eq_refl eq_refl)).
Defined.

Lemma bytes_path_is_decoded_witness :
  wrap1 sample_os_ascii sample_method [Bytes not_utf8] [] sample_state =
    (Raise UnicodeDecodeError, sample_state) /\
  lfnmkdir sample_os_ascii (Bytes "C:\work") None sample_state =
    lfnmkdir sample_os_ascii (Str "C:\work") None sample_state.
Proof.
  destruct (bytes_path_is_decoded sample_os_ascii sample_method not_utf8 [] []
              None sample_state) as [H1 _].
  destruct (bytes_path_is_decoded sample_os_ascii sample_method "C:\work" [] []
              None sample_state) as [_ H2].
  split.
  - exact (proj1 (H1 eq_refl)).
  - exact (proj2 (proj2 (proj2 (H2 "C:\work" eq_refl)))).
Defined.

Lemma lfnmkdir_unlisted_code_keyerror_witness :
  lfnmkdir sample_os (Str "C:\locked\new") None sample_state =
    (Raise (KeyError 5),
     logged CallGetLastError
       (with_last_error 5
          (logged (CallCreateDirectory "\\?\C:\locked\new" None)
             (logged (CallAbspath "C:\locked\new") sample_state)))).
Proof.
  refine (lfnmkdir_unlisted_code_keyerror sample_os (Str "C:\locked\new") None
            sample_state "\\?\C:\locked\new"
            (logged (CallAbspath "C:\locked\new") sample_state) 5
            eq_refl eq_refl _ _); discriminate.
Defined.

Lemma lfnlistdir_call_protocol_witness :
  exists s',
    snd (lfnlistdir sample_os (Str "C:\work") sample_state) = s' /\
    trace s' = [CallAbspath "C:\work"; CallFindFirstFile "\\?\C:\work\*";
                CallFindNextFile 7; CallFindNextFile 7; CallFindNextFile 7;
                CallFindNextFile 7; CallFindClose 7] /\
    find_open s' = None /\
    _cwd s' = None /\ real_cwd s' = "C:\work".
Proof.
  refine (lfnlistdir_call_protocol sample_os (Str "C:\work") sample_state
            "\\?\C:\work" (logged (CallAbspath "C:\work") sample_state)
            7 "." [".."; "a.txt"; "sub"] eq_refl eq_refl _).
  discriminate.
Defined.

Lemma lfnlistdir_failed_open_calls_witness :
  trace (snd (lfnlistdir sample_os (Str "C:\missing") sample_state)) =
    [CallAbspath "C:\missing"; CallFindFirstFile "\\?\C:\missing\*";
     CallGetLastError; CallFindNextFile (-1); CallFindClose (-1)] /\
  trace (snd (lfnlistdir sample_os (Str "C:\locked") sample_state)) =
    [CallAbspath "C:\locked"; CallFindFirstFile "\\?\C:\locked\*";
     CallGetLastError].
Proof.
  split.
  - apply (proj1 (lfnlistdir_failed_open_calls sample_os (Str "C:\missing")
                    sample_state "\\?\C:\missing"
                    (logged (CallAbspath "C:\missing") sample_state) 3
                    eq_refl eq_refl eq_refl)).
    left. reflexivity.
  - apply (proj2 (lfnlistdir_failed_open_calls sample_os (Str "C:\locked")
                    sample_state "\\?\C:\locked"
                    (logged (CallAbspath "C:\locked") sample_state) 5
                    eq_refl eq_refl eq_refl)); discriminate.
Defined.

Lemma lfnlistdir_never_empty_witness :
  fst (lfnlistdir sample_os (Str "C:\missing") sample_state) = Ret [Bytes ""] /\
  [Bytes ""] <> [].
Proof.
  split; [reflexivity |].
  apply (lfnlistdir_never_empty sample_os (Str "C:\missing") sample_state
           [Bytes ""]
           (snd (lfnlistdir sample_os (Str "C:\missing") sample_state))).
  reflexivity.
Defined.


Lemma lfnchdir_keeps_cwd_encoded_witness :
  cwd_encoded (snd (lfnchdir sample_os "C:\work" sample_state)) /\
  (forall t s0,
      _cwd (snd (lfnchdir sample_os "C:\work" sample_state)) = Some t ->
      t <> EmptyString /\ uncabspath sample_os (Str t) s0 = (Ret t, s0)).
Proof.
  exact (lfnchdir_keeps_cwd_encoded sample_os "C:\work" sample_state I).
Defined.

Lemma lfnchdir_then_getcwd_and_abspath_witness :
  wrapgetcwd (raise IndexError)
    (snd (lfnchdir sample_os "C:\work" sample_state))
    = (Ret "\\?\C:\work", snd (lfnchdir sample_os "C:\work" sample_state)) /\
  wrapabspath (fun p => ret p) (fun p => p) (fun _ => false)
    (wrapsplit sample_split) sample_join (wrapgetcwd (raise IndexError)) ".."
    (snd (lfnchdir sample_os "C:\work" sample_state))
    = (Ret "\\?\C:\", snd (lfnchdir sample_os "C:\work" sample_state)).
Proof.
  destruct (lfnchdir_then_getcwd_and_abspath sample_os "C:\work" sample_state
              (snd (lfnchdir sample_os "C:\work" sample_state)) eq_refl)
    as [G A].
  split.
  - exact (G (raise IndexError)).
  - exact (A (fun p => ret p) (fun p => p) (fun _ => false)
             (wrapsplit sample_split) sample_join (raise IndexError) ".."
             eq_refl).
Defined.

Lemma cleanDir_forced_removes_reported_witness :
  cleanDir sample_host "C:\repo" true [] =
    (Done tt,
     [Unlink ("C:\repo\" ++ long_name ++ "\f.txt");
      Rmdir ("C:\repo\" ++ long_name)]) /\
  reported sample_host "C:\repo" =
    ["C:\repo\" ++ long_name ++ "\f.txt"; "C:\repo\" ++ long_name].
Proof.
  destruct (cleanDir_forced_removes_reported sample_host "C:\repo" []
              (fun _ _ => eq_refl) (fun _ _ => eq_refl)) as [C [_ _]].
  split; [rewrite C |]; vm_compute; reflexivity.
Defined.

Lemma cleanDir_directory_before_any_file_witness :
  cleanDir sample_host_empty_dir "C:\repo" false [] =
    (Failed (UnboundLocalError "f"), []).
Proof.
  refine (cleanDir_directory_before_any_file sample_host_empty_dir "C:\repo"
            [("C:\repo\" ++ long_name, ([], []))] "C:\repo" [long_name]
            ["short.txt"] [] [] eq_refl _ _).
  - constructor; [split; reflexivity | constructor].
  - vm_compute. discriminate.
Defined.

Lemma cleanDir_declined_removes_nothing_witness :
  exists r evs,
    cleanDir sample_host "C:\repo" false [] = (r, ([] ++ evs)%list) /\
    Forall (fun e => removed e = None) evs.
Proof.
  exact (cleanDir_declined_removes_nothing sample_host "C:\repo" []
           (fun _ _ => eq_refl)).
Defined.

(** What the commands do on the sample host. *)
Example lfn_list_sample :
  lfn sample_host "C:\repo" false false [] =
    (Done tt,
     [Written ("C:\repo\" ++ long_name ++ "\f.txt" ++ newline);
      Written ("C:\repo\" ++ long_name ++ newline)]).
Proof. vm_compute. reflexivity. Qed.

Example cleanDir_sample_asks_about_the_file_twice :
  cleanDir sample_host_plain "C:\repo" false [] =
    (Done tt,
     [Prompted ("Delete C:\repo\" ++ long_name ++ "\f.txt (yn)?");
      Prompted ("Delete C:\repo\" ++ long_name ++ "\f.txt (yn)?")]).
Proof. vm_compute. reflexivity. Qed.

(** Where [_] returns a [bytes], the clean-up that is not forced fails on its
    first prompt, before anything is asked. *)
Example cleanDir_sample_fails_on_the_prompt :
  cleanDir sample_host "C:\repo" false [] =
    (Failed (Propagated (TypeError bytes_percent_str)), []).
Proof. vm_compute. reflexivity. Qed.
